(** * Dependency splitting of UFL expressions

    A shallow embedding of [ufl/algorithms/dependencies.py]: the
    [DependencySet] lattice, the [CodeStructure] registry, the
    [DependencySplitter] transformer and [split_by_dependencies],
    followed by the properties of the specification that concern them. *)

From Stdlib Require Import QArith.
From stdpp Require Import gmap list strings.

Set Default Proof Using "Type".
Set Warnings "-register-all".

(** ** DependencySet *)

(** [class DependencySet]: the three attributes set by [__init__].
    The flags are Python booleans, the basis function flags a tuple. *)
Record DependencySet := mkDependencySet {
  basisfunctions : list bool;
  runtime : bool;
  coordinates : bool
}.

#[global] Instance DependencySet_eq_dec : EqDecision DependencySet.
Proof. solve_decision. Defined.

(** [DependencySet.iter]: [chain((runtime, coordinates), basisfunctions)]. *)
Definition DependencySet_iter (self : DependencySet) : list bool :=
  runtime self :: coordinates self :: basisfunctions self.

(** [DependencySet.size]: [len(list(self.iter()))]. *)
Definition DependencySet_size (self : DependencySet) : nat :=
  length (DependencySet_iter self).

(** The loop of [covers] over the zipped flags. *)
Fixpoint covers_loop (l : list (bool * bool)) : bool :=
  match l with
  | [] => true
  | (a, o) :: l' => if o && negb a then false else covers_loop l'
  end.

(** [DependencySet.covers]. [zip] stops at the shorter sequence. *)
Definition DependencySet_covers (self other : DependencySet) : bool :=
  covers_loop (zip (DependencySet_iter self) (DependencySet_iter other)).

(** [DependencySet.__hash__]: [hash(tuple(self.iter()))]. Python's hash of
    a tuple is a function of the tuple's items; the hash value is
    represented here by the tuple it is computed from, so that two hash
    values are equal exactly when the flag tuples are. *)
Definition DependencySet_hash (self : DependencySet) : list bool :=
  DependencySet_iter self.

(** The loop of [__cmp__]. The flags are compared as Python compares
    booleans, through their integer values; the second test compares
    the flag [a] with the constant [1], as the source does. *)
Fixpoint cmp_loop (l : list (bool * bool)) : Z :=
  match l with
  | [] => 0%Z
  | (a, b) :: l' =>
      if (Z.b2z a <? Z.b2z b)%Z then (-1)%Z
      else if (Z.b2z a >? 1)%Z then 1%Z
      else cmp_loop l'
  end.

(** [DependencySet.__cmp__]. *)
Definition DependencySet_cmp (self other : DependencySet) : Z :=
  cmp_loop (zip (DependencySet_iter self) (DependencySet_iter other)).

(** [self == other] and [self != other]: the class is an old-style class
    that defines [__cmp__] only, so both operators go through it. *)
Definition DependencySet_eq (self other : DependencySet) : bool :=
  (DependencySet_cmp self other =? 0)%Z.

Definition DependencySet_ne (self other : DependencySet) : bool :=
  negb (DependencySet_cmp self other =? 0)%Z.

(** Modelled from the spec: [or_tuples] and [and_tuples] of [ufl.common],
    which are not among the sources; the pairwise logical OR and AND of
    two flag tuples, by pairwise iteration (the longer one is cut). *)
Definition or_tuples (seqa seqb : list bool) : list bool :=
  zip_with orb seqa seqb.

Definition and_tuples (seqa seqb : list bool) : list bool :=
  zip_with andb seqa seqb.

(** [DependencySet.__or__]. *)
Definition DependencySet_or (self other : DependencySet) : DependencySet :=
  let basisfunctions := or_tuples (basisfunctions self) (basisfunctions other) in
  let d := mkDependencySet basisfunctions
             (runtime self || runtime other)
             (coordinates self || coordinates other) in
  d.

(** [DependencySet.__and__]. *)
Definition DependencySet_and (self other : DependencySet) : DependencySet :=
  let basisfunctions := and_tuples (basisfunctions self) (basisfunctions other) in
  let d := mkDependencySet basisfunctions
             (runtime self && runtime other)
             (coordinates self && coordinates other) in
  d.

(** *** DependencySet instances as objects

    A [DependencySet] instance is a mutable Python object
    ([facet_normal] assigns to [deps.runtime]). To speak of what a method
    does to its operands, instances are placed in a store indexed by
    object identity; the methods read their operands from the store and
    allocate their result. *)




(** ** Expressions *)

(** The node classes the splitter distinguishes. Terminals: *)
Inductive terminal_class :=
| MultiIndex
| Zero
| FloatValue (value : Q)
| IntValue (value : Z)
| Identity
| BasisFunction (count : nat)
| Function (count : nat)
| FacetNormal.

(** and operators. *)
Inductive operator_class :=
| SpatialDerivative
| Sum
| Product
| Division
| Power
| Indexed
| ListTensor
| ComponentTensor.

(** An expression node. Nodes are immutable Python objects and are
    compared with [is]: every node carries the identity [id] of the
    object it stands for. A [Variable_] (the class [Variable]) holds its expression and the
    count of its label. *)
Inductive Expr :=
| Terminal (id : nat) (cls : terminal_class)
| Variable_ (id : nat) (expression : Expr) (label : nat)
| Operator (id : nat) (cls : operator_class) (operands : list Expr).

Definition id_of (x : Expr) : nat :=
  match x with
  | Terminal i _ | Variable_ i _ _ | Operator i _ _ => i
  end.

(** [a is b]. *)
Definition is_ (a b : Expr) : bool := bool_decide (id_of a = id_of b).

(** [x.operands()], as the handlers of the splitter use it (on operator
    nodes); a terminal has none, the label of a variable is kept as a
    field. *)
Definition operands_of (x : Expr) : list Expr :=
  match x with
  | Terminal _ _ => []
  | Variable_ _ e _ => [e]
  | Operator _ _ ops => ops
  end.

(** [isinstance(e, Variable)]. *)
Definition isinstance_Variable (e : Expr) : bool :=
  match e with Variable_ _ _ _ => true | _ => false end.

(** [isinstance(e, _skiptypes)] with
    [_skiptypes = (MultiIndex, Zero, FloatValue, IntValue)]. *)
Definition isinstance_skiptypes (e : Expr) : bool :=
  match e with
  | Terminal _ MultiIndex | Terminal _ Zero
  | Terminal _ (FloatValue _) | Terminal _ (IntValue _) => true
  | _ => false
  end.

(** ** VariableInfo and CodeStructure *)

(** [class VariableInfo]; [diffcache] starts empty and is never used by
    the splitter. [vi_id] is the identity of the object. *)
Record VariableInfo := mkVariableInfo {
  vi_id : nat;
  variable : Expr;
  deps : DependencySet
}.

(** [class CodeStructure]: [variableinfo] maps a variable count to its
    info, [stacks] is a [defaultdict(list)] keyed by dependency sets,
    kept as the list of its (key, stack) items. *)
Record CodeStructure := mkCodeStructure {
  variableinfo : gmap nat VariableInfo;
  stacks : list (DependencySet * list VariableInfo)
}.

(** Key comparison of a Python dict: a stored key matches the key looked
    up when their hashes are equal and the stored key compares equal to
    it (an identical object has equal flags and passes both tests). *)
Definition key_match (stored key : DependencySet) : bool :=
  bool_decide (DependencySet_hash stored = DependencySet_hash key)
  && DependencySet_eq stored key.

(** [stacks[key]] read without inserting. *)
Fixpoint stacks_get (st : list (DependencySet * list VariableInfo))
    (key : DependencySet) : option (DependencySet * list VariableInfo) :=
  match st with
  | [] => None
  | (k, stack) :: rest =>
      if key_match k key then Some (k, stack) else stacks_get rest key
  end.

(** [stacks[key].append(vinfo)]: the default dict creates the empty stack
    under [key] when no stored key matches. *)
Fixpoint stacks_append (st : list (DependencySet * list VariableInfo))
    (key : DependencySet) (vinfo : VariableInfo)
  : list (DependencySet * list VariableInfo) :=
  match st with
  | [] => [(key, [vinfo])]
  | (k, stack) :: rest =>
      if key_match k key then (k, stack ++ [vinfo]) :: rest
      else (k, stack) :: stacks_append rest key vinfo
  end.

(** ** The state of a run and its monad *)

(** What a run of the splitter reads and writes: the code structure of
    the [DependencySplitter], the allocator of object identities and the
    class attribute [Label._globalcount]. *)
Record State := mkState {
  codestructure : CodeStructure;
  next_id : nat;
  Label_globalcount : nat
}.

Inductive exception :=
| UFLException (message : string)
| IndexError
| TypeError
| AttributeError
| UnboundLocalError.

Inductive result (A : Type) :=
| Ok (a : A)
| Raise (e : exception).
Arguments Ok {A} a.
Arguments Raise {A} e.

Definition M (A : Type) : Type := State → result (A * State).

Definition ret {A} (a : A) : M A := fun s => Ok (a, s).

Definition bind {A B} (m : M A) (k : A → M B) : M B :=
  fun s => match m s with
           | Ok (a, s') => k a s'
           | Raise e => Raise e
           end.

Definition raise {A} (e : exception) : M A := fun _ => Raise e.

Notation "'let*' x ':=' c1 'in' c2" := (bind c1 (fun x => c2))
  (at level 10, x name, c1 at level 200, c2 at level 200).

(** Modelled from the spec: [ufl_assert(condition, message)] of
    [ufl.assertions], which is not among the sources; a failed assertion
    is fatal and raises. *)
Definition ufl_assert (condition : bool) (message : string) : M unit :=
  if condition then ret tt else raise (UFLException message).

(** A new object identity. *)
Definition new_id : M nat :=
  fun s => Ok (next_id s,
               mkState (codestructure s) (S (next_id s)) (Label_globalcount s)).

(** Modelled from the spec: the classes [Label] and [Variable] of
    [ufl.variable], which are not among the sources. A named variable
    wraps an expression and carries a process-unique integer label:
    [Label()] takes the next value of the global counter, [Label(count)]
    takes [count] and keeps the counter ahead of it. *)
Definition new_Label (count : option nat) : M nat :=
  fun s => match count with
           | None =>
               Ok (Label_globalcount s,
                   mkState (codestructure s) (next_id s) (S (Label_globalcount s)))
           | Some c =>
               Ok (c, mkState (codestructure s) (next_id s)
                        (Nat.max (Label_globalcount s) (S c)))
           end.

(** [Variable(e)] and [Variable(e, label=Label(count))]. *)
Definition new_Variable (e : Expr) (count : option nat) : M Expr :=
  let* c := new_Label count in
  let* i := new_id in
  ret (Variable_ i e c).

(** Modelled from the spec: the constructors of the operator classes,
    which are not among the sources. Calling [type(x)] on operands
    produces a new node of the same variant as [x] over them. *)
Definition construct (x : Expr) (ops : list Expr) : M Expr :=
  match x with
  | Operator _ cls _ => let* i := new_id in ret (Operator i cls ops)
  | _ => raise TypeError
  end.

(** [self.codestructure.variableinfo.get(count, None)]. *)
Definition variableinfo_get (count : nat) : M (option VariableInfo) :=
  fun s => Ok (variableinfo (codestructure s) !! count, s).

(** [vinfo = VariableInfo(v, deps)]. *)
Definition new_VariableInfo (v : Expr) (d : DependencySet) : M VariableInfo :=
  let* i := new_id in ret (mkVariableInfo i v d).

(** [variableinfo[count] = vinfo] followed by [stacks[deps].append(vinfo)]. *)
Definition codestructure_add (count : nat) (d : DependencySet)
    (vinfo : VariableInfo) : M unit :=
  fun s =>
    let cs := codestructure s in
    Ok (tt, mkState (mkCodeStructure (<[count := vinfo]> (variableinfo cs))
                                     (stacks_append (stacks cs) d vinfo))
                    (next_id s) (Label_globalcount s)).

(** ** DependencySplitter *)

(** The two tables of [FormData] the splitter reads. They are dicts keyed
    by expression nodes and filled elsewhere; a lookup gives the slot of
    a node or nothing. *)
Record FormData := mkFormData {
  basisfunction_renumbering : Expr → option nat;
  coefficient_renumbering : Expr → option nat
}.

Section DependencySplitter.

(** The arguments of [DependencySplitter.__init__]. *)
Variable formdata : FormData.
Variable basisfunction_deps : list DependencySet.
Variable function_deps : list DependencySet.

(** [make_empty_deps]. *)
Definition make_empty_deps : DependencySet :=
  mkDependencySet (replicate (length basisfunction_deps) false) false false.

(** [deps = self.make_empty_deps(); deps.runtime = True]. *)
Definition runtime_deps : DependencySet :=
  let deps := make_empty_deps in
  mkDependencySet (basisfunctions deps) true (coordinates deps).

(** [terminal]. *)
Definition terminal (x : Expr) : M (Expr * DependencySet) :=
  ret (x, make_empty_deps).

(** [basis_function]; [self.basisfunction_deps[i]] raises out of range. *)
Definition basis_function (x : Expr) : M (Expr * DependencySet) :=
  match basisfunction_renumbering formdata x with
  | None => raise (UFLException "Can't find basis function in renumbering dict!")
  | Some i =>
      match basisfunction_deps !! i with
      | None => raise IndexError
      | Some d => ret (x, d)
      end
  end.

(** [function] (what it prints is left out). *)
Definition function (x : Expr) : M (Expr * DependencySet) :=
  match coefficient_renumbering formdata x with
  | None => raise (UFLException "Can't find function in renumbering dict!")
  | Some i =>
      match function_deps !! i with
      | None => raise IndexError
      | Some d => ret (x, d)
      end
  end.

(** [facet_normal]. *)
Definition facet_normal (x : Expr) : M (Expr * DependencySet) :=
  ret (x, runtime_deps).

(** [variable]. *)
Definition variable_ (x : Expr) : M (Expr * DependencySet) :=
  match x with
  | Variable_ _ _ count =>
      let* vinfo := variableinfo_get count in
      match vinfo with
      | None => raise (UFLException "Haven't handled variable in time")
      | Some vinfo => ret (variable vinfo, deps vinfo)
      end
  | _ => raise AttributeError
  end.

(** [spatial_derivative]. *)
Definition spatial_derivative (x : Expr) (f ii : Expr * DependencySet)
  : M (Expr * DependencySet) :=
  let deps := runtime_deps in
  let d := DependencySet_or f.2 deps in
  match operands_of x with
  | [] => raise IndexError
  | o0 :: _ =>
      if is_ f.1 o0 then ret (x, d)
      else let* e := construct x [f.1; ii.1] in ret (e, d)
  end.

(** [register_expression]. The [else] branch only logs. *)
Definition register_expression (e : Expr) (d : DependencySet)
    (count : option nat) : M VariableInfo :=
  let* v := match count with
             | None => if isinstance_Variable e then ret e else new_Variable e None
             | Some c => new_Variable e (Some c)
             end in
  match v with
  | Variable_ _ _ count =>
      let* vinfo := variableinfo_get count in
      match vinfo with
      | None =>
          let* vinfo := new_VariableInfo v d in
          let* _ := codestructure_add count d vinfo in
          ret vinfo
      | Some vinfo => ret vinfo
      end
  | _ => raise AttributeError
  end.

(** The loop of [expr] that makes variables of the operands. *)
Fixpoint promote_ops (oldops : list (Expr * DependencySet))
  : M (list (Expr * DependencySet)) :=
  match oldops with
  | [] => ret []
  | o :: oldops' =>
      let* o' := (if isinstance_skiptypes o.1 then ret o
                  else let* vinfo := register_expression o.1 o.2 None in
                       ret (variable vinfo, deps vinfo)) in
      let* ops := promote_ops oldops' in
      ret (o' :: ops)
  end.

(** [d = ops[0][1]; for o in ops[1:]: d |= o[1]]. *)
Definition combine_deps (o0 : Expr * DependencySet)
    (rest : list (Expr * DependencySet)) : DependencySet :=
  fold_left (fun d o => DependencySet_or d o.2) rest o0.2.

(** [all((a is b) for (a, b) in zip(ops, x.operands()))]. *)
Definition all_is (ops : list Expr) (x : Expr) : bool :=
  forallb (fun ab => is_ ab.1 ab.2) (zip ops (operands_of x)).

(** [expr]. *)
Definition expr (x : Expr) (ops : list (Expr * DependencySet))
  : M (Expr * DependencySet) :=
  match ops with
  | [] => raise (UFLException "Non-terminal with no ops should never occur.")
  | o0 :: rest =>
      let d := combine_deps o0 rest in
      let* ops := (if existsb (fun o => DependencySet_ne o.2 d) ops
                   then promote_ops ops
                   else ret ops) in
      let ops := map fst ops in
      if all_is ops x then ret (x, d)
      else let* e := construct x ops in ret (e, d)
  end.

(** Modelled from the spec: [Transformer.visit] of
    [ufl.algorithms.transformations], which is not among the sources.
    A bottom-up transformer: a node is handed to the handler of its
    variant; the handlers that take the visited operands
    ([spatial_derivative], [expr]) get the results of visiting the
    operands from left to right, the others get the node alone. *)
Fixpoint visit (o : Expr) : M (Expr * DependencySet) :=
  match o with
  | Terminal _ (BasisFunction _) => basis_function o
  | Terminal _ (Function _) => function o
  | Terminal _ FacetNormal => facet_normal o
  | Terminal _ _ => terminal o
  | Variable_ _ _ _ => variable_ o
  | Operator _ cls operands =>
      let* rs := (fix visit_all (l : list Expr) : M (list (Expr * DependencySet)) :=
                    match l with
                    | [] => ret []
                    | c :: l' =>
                        let* r := visit c in
                        let* rs := visit_all l' in
                        ret (r :: rs)
                    end) operands in
      match cls with
      | SpatialDerivative =>
          match rs with
          | [f; ii] => spatial_derivative o f ii
          | _ => raise TypeError
          end
      | _ => expr o rs
      end
  end.

(** [map(self.visit, operands)], the inner loop of [visit]. *)
Fixpoint visit_all (l : list Expr) : M (list (Expr * DependencySet)) :=
  match l with
  | [] => ret []
  | c :: l' => let* r := visit c in let* rs := visit_all l' in ret (r :: rs)
  end.

(** [handle]. *)
Definition handle (v : Expr) : M VariableInfo :=
  match v with
  | Variable_ _ expression count =>
      let* vinfo := variableinfo_get count in
      match vinfo with
      | None =>
          let* r := visit expression in
          register_expression r.1 r.2 (Some count)
      | Some vinfo => ret vinfo
      end
  | _ => raise (UFLException "Expecting Variable.")
  end.

(** The loop [for v in variables: vinfo = ds.handle(v)]; the result is
    the last [vinfo] bound, if any. *)
Fixpoint handle_all (variables : list Expr) (vinfo : option VariableInfo)
  : M (option VariableInfo) :=
  match variables with
  | [] => ret vinfo
  | v :: variables' =>
      let* vinfo := handle v in
      handle_all variables' (Some vinfo)
  end.

(** [extract_variables] of [ufl.algorithms.analysis] is not among the
    sources; [split_by_dependencies] is given the function. *)
Variable extract_variables : Expr → list Expr.

(** [split_by_dependencies]. The splitter starts from an empty code
    structure; the identity allocator and the label counter are those
    of the running process. The result is paired with their final
    values. *)
Definition split_by_dependencies (expression : Expr)
    (next_id0 Label_globalcount0 : nat)
  : result ((VariableInfo * CodeStructure) * State) :=
  let run : M (VariableInfo * CodeStructure) :=
    let variables := extract_variables expression in
    let* variables :=
      (if isinstance_Variable expression then
         match last variables with
         | None => raise IndexError
         | Some l =>
             let* _ := ufl_assert (is_ expression l)
                         "Expecting the last result to be the input variable" in
             ret variables
         end
       else
         let* expression := new_Variable expression None in
         ret (variables ++ [expression])) in
    let* vinfo := handle_all variables None in
    match vinfo with
    | None => raise UnboundLocalError
    | Some vinfo => fun s => Ok ((vinfo, codestructure s), s)
    end
  in
  run (mkState (mkCodeStructure ∅ []) next_id0 Label_globalcount0).

End DependencySplitter.

(** Modelled from the spec: [extract_variables] of
    [ufl.algorithms.analysis], which is not among the sources; every
    named-variable node reachable from the input, in post-order, so that
    a variable comes after the variables of its expression. *)
Fixpoint extract_variables_post (e : Expr) : list Expr :=
  match e with
  | Terminal _ _ => []
  | Variable_ _ e' _ => extract_variables_post e' ++ [e]
  | Operator _ _ ops =>
      (fix go (l : list Expr) : list Expr :=
         match l with
         | [] => []
         | o :: l' => extract_variables_post o ++ go l'
         end) ops
  end.

(** ** Notions used by the statements *)

(** The count under which [register_expression] looks up and registers:
    the given [count], else the label of [e] when [e] is a variable, else
    the label of the variable it creates. *)
Definition registration_label (e : Expr) (count : option nat) (s : State) : nat :=
  match count with
  | Some c => c
  | None =>
      match e with
      | Variable_ _ _ c => c
      | _ => Label_globalcount s
      end
  end.

(** [vi] is an element of the stack stored under its dependency set. *)
Definition in_stack (cs : CodeStructure) (vi : VariableInfo) : Prop :=
  ∃ stack, (deps vi, stack) ∈ stacks cs ∧ vi ∈ stack.

(** [v] is a named variable registered in [cs] with dependency set [d]:
    its label maps to an info that holds [v] and [d] and is in the stack
    of [d]. *)
Definition registered (cs : CodeStructure) (v : Expr) (d : DependencySet) : Prop :=
  ∃ i e c vi,
    v = Variable_ i e c ∧ variableinfo cs !! c = Some vi ∧
    variable vi = v ∧ deps vi = d ∧ in_stack cs vi.

(** Every registered label is below the global label counter. *)
Definition labels_fresh (s : State) : Prop :=
  ∀ c vi, variableinfo (codestructure s) !! c = Some vi →
          (c < Label_globalcount s)%nat.

(** The invariant of the code structure during a run. *)
Record cs_inv (s : State) : Prop := mk_cs_inv {
  inv_fresh : labels_fresh s;
  inv_label : ∀ c vi, variableinfo (codestructure s) !! c = Some vi →
                      ∃ i e, variable vi = Variable_ i e c;
  inv_in_stack : ∀ c vi, variableinfo (codestructure s) !! c = Some vi →
                         in_stack (codestructure s) vi;
  inv_key : ∀ k stack vi, (k, stack) ∈ stacks (codestructure s) → vi ∈ stack →
                          deps vi = k ∧ (vi_id vi < next_id s)%nat;
  inv_keys_nodup : NoDup (stacks (codestructure s)).*1;
  inv_ids_nodup : NoDup (vi_id <$> concat (stacks (codestructure s)).*2)
}.

(** The code structure only grows from [s] to [s']. *)
Definition grows (s s' : State) : Prop :=
  variableinfo (codestructure s) ⊆ variableinfo (codestructure s') ∧
  (∀ vi, in_stack (codestructure s) vi → in_stack (codestructure s') vi) ∧
  (next_id s ≤ next_id s')%nat ∧
  (Label_globalcount s ≤ Label_globalcount s')%nat.

(** A result [(e, d)] of the splitter is in order when [e], if it is a
    named variable, is registered with [d]. *)
Definition res_ok (s : State) (r : Expr * DependencySet) : Prop :=
  isinstance_Variable r.1 = true → registered (codestructure s) r.1 r.2.

(** What the loop of [expr] makes of an operand [o]: a skipped operand
    stays; any other becomes a reference [o'] to a named variable that is
    registered with the dependency set of [o], the operand itself when it
    is a variable already and a new variable around it otherwise. *)
Definition promoted (cs : CodeStructure) (o o' : Expr * DependencySet) : Prop :=
  if isinstance_skiptypes o.1 then o' = o
  else registered cs o'.1 o.2 ∧ o'.2 = o.2 ∧
       (if isinstance_Variable o.1 then o'.1 = o.1
        else ∃ i c, o'.1 = Variable_ i o.1 c).

(** [e'] is the node [x] over the operand references [ops]: [x] itself
    when the references are those of its operands, a new node of the
    class of [x] otherwise. *)
Definition node_over (x : Expr) (ops : list Expr) (e' : Expr) : Prop :=
  (e' = x ∧ all_is ops x = true) ∨
  (all_is ops x = false ∧
   ∃ i i' cls old, x = Operator i cls old ∧ e' = Operator i' cls ops).

(** Every registered dependency set has [n] basis function flags. *)
Definition deps_wf (n : nat) (s : State) : Prop :=
  ∀ c vi, variableinfo (codestructure s) !! c = Some vi →
          length (basisfunctions (deps vi)) = n.

(** The tables given to the splitter hold dependency sets with one basis
    function flag per slot. *)
Definition tables_wf (basisfunction_deps function_deps : list DependencySet) : Prop :=
  Forall (λ d, length (basisfunctions d) = length basisfunction_deps)
         basisfunction_deps ∧
  Forall (λ d, length (basisfunctions d) = length basisfunction_deps)
         function_deps.

(** ** States and inputs used as examples *)

(** A state in which one variable, of label 5, wraps a literal zero. *)
Definition zero_info : VariableInfo :=
  mkVariableInfo 2 (Variable_ 1 (Terminal 0 Zero) 5)
    (mkDependencySet [false] false false).

Definition one_variable_state : State :=
  mkState
    (mkCodeStructure {[ 5%nat := zero_info ]}
       [(mkDependencySet [false] false false, [zero_info])])
    3 6.

(** The input of the scenario [1.23 * v]: a product of a float literal
    and the basis function of slot 0, in a form with two basis function
    slots; the renumbering maps a basis function to its count. *)
Definition literal_1_23 : Expr := Terminal 0 (FloatValue (123 # 100)).

Definition v_slot0 : Expr := Terminal 1 (BasisFunction 0).

Definition product_1_23_v : Expr := Operator 2 Product [literal_1_23; v_slot0].

Definition formdata_by_count : FormData :=
  mkFormData
    (λ x, match x with Terminal _ (BasisFunction c) => Some c | _ => None end)
    (λ x, match x with Terminal _ (Function c) => Some c | _ => None end).

Definition deps_v : DependencySet := mkDependencySet [true; false] false false.

Definition deps_u : DependencySet := mkDependencySet [false; true] false false.

(** [v + v], with the node of [v] shared, the derivative of [v] in the
    direction of a multi-index, and [1.23 * v] named by a variable. *)
Definition sum_v_v : Expr := Operator 5 Sum [v_slot0; v_slot0].

Definition multi_index : Expr := Terminal 7 MultiIndex.

Definition dx_v : Expr := Operator 6 SpatialDerivative [v_slot0; multi_index].

Definition named_product : Expr := Variable_ 3 product_1_23_v 0.

Definition initial_state : State := mkState (mkCodeStructure ∅ []) 8 1.

(** ** Notions used by the further properties *)

(** The code structure [cs'] extends [cs]: every label registered in [cs]
    is bound to the same info in [cs'], and every stack found in [cs] is
    found in [cs'] under the same key, with the old stack as a prefix. *)
Definition cs_extends (cs cs' : CodeStructure) : Prop :=
  variableinfo cs ⊆ variableinfo cs' ∧
  ∀ k key stack,
    stacks_get (stacks cs) k = Some (key, stack) →
    ∃ stack', stacks_get (stacks cs') k = Some (key, stack') ∧
              stack `prefix_of` stack'.

(** The infos in the stacks are the infos of [variableinfo], each once,
    and no stack is empty. *)
Definition registry_in_stacks (cs : CodeStructure) : Prop :=
  concat (stacks cs).*2 ≡ₚ (map_to_list (variableinfo cs)).*2 ∧
  ∀ k stack, (k, stack) ∈ stacks cs → stack ≠ [].

(** A tree without basis functions, coefficient functions, facet
    normals, variables and spatial derivatives, in which every operator
    has operands: a constant expression. *)
Fixpoint constant_tree (x : Expr) : bool :=
  match x with
  | Terminal _ (BasisFunction _) | Terminal _ (Function _)
  | Terminal _ FacetNormal => false
  | Terminal _ _ => true
  | Variable_ _ _ _ => false
  | Operator _ SpatialDerivative _ => false
  | Operator _ _ ops =>
      match ops with
      | [] => false
      | _ :: _ =>
          (fix all_constant (l : list Expr) : bool :=
             match l with
             | [] => true
             | o :: l' => constant_tree o && all_constant l'
             end) ops
      end
  end.

(** A terminal whose dependency set is looked up in a table. *)
Definition table_terminal (cls : terminal_class) : bool :=
  match cls with
  | BasisFunction _ | Function _ => true
  | _ => false
  end.

(** From [s] to [s'] only labels at or above the global counter of [s]
    have been registered. *)
Definition new_labels_above (s s' : State) : Prop :=
  ∀ c, is_Some (variableinfo (codestructure s') !! c) →
       is_Some (variableinfo (codestructure s) !! c) ∨
       (Label_globalcount s ≤ c)%nat.

(** ** The base class of expressions (ufl/expr.py) *)

(** A cell, as far as [Expr.cell] and [Expr.geometric_dimension] ask it:
    [is_undefined()] and [geometric_dimension()]. *)
Record Cell := mkCell {
  is_undefined : bool;
  cell_geometric_dimension : nat
}.

Section Expr_base.

(** The classes of terminals define [cell] themselves, in files that are
    not among the sources; their answers are taken as given. *)
Variable terminal_cell : Expr → option Cell.

(** [Expr.cell]: the loop over the operands keeps in [c] the last cell
    that is not [None] and stops at the first cell that is fully
    defined. A variable has the cell of its expression (its label has
    none). *)
Fixpoint cell (x : Expr) : option Cell :=
  match x with
  | Terminal _ _ => terminal_cell x
  | Variable_ _ e _ => cell e
  | Operator _ _ ops =>
      (fix loop (c : option Cell) (l : list Expr) : option Cell :=
         match l with
         | [] => c
         | o :: l' =>
             match cell o with
             | Some d => if negb (is_undefined d) then Some d else loop (Some d) l'
             | None => loop c l'
             end
         end) None ops
  end.

(** The loop of [Expr.cell] on its own, from the best cell so far. *)
Fixpoint cell_loop (c : option Cell) (l : list Expr) : option Cell :=
  match l with
  | [] => c
  | o :: l' =>
      match cell o with
      | Some d => if negb (is_undefined d) then Some d else cell_loop (Some d) l'
      | None => cell_loop c l'
      end
  end.

(** [Expr.geometric_dimension]; [error] of [ufl.log] raises. *)
Definition geometric_dimension (x : Expr) : result nat :=
  match cell x with
  | None =>
      Raise (UFLException "Cannot infer geometric dimension for this expression.")
  | Some c =>
      if is_undefined c
      then Raise (UFLException "Cannot infer geometric dimension for this expression.")
      else Ok (cell_geometric_dimension c)
  end.

(** The terminals of a tree from left to right, and the cells they have. *)
Fixpoint leaves (x : Expr) : list Expr :=
  match x with
  | Terminal _ _ => [x]
  | Variable_ _ e _ => leaves e
  | Operator _ _ ops =>
      (fix go (l : list Expr) : list Expr :=
         match l with
         | [] => []
         | o :: l' => leaves o ++ go l'
         end) ops
  end.

Definition leaf_cells (x : Expr) : list Cell := omap terminal_cell (leaves x).

End Expr_base.

(** The first fully defined cell of a list, else its last cell, else
    [c]. *)
Definition best_cell (c : option Cell) (cells : list Cell) : option Cell :=
  match find (λ d, negb (is_undefined d)) cells with
  | Some d => Some d
  | None =>
      match last cells with
      | Some d => Some d
      | None => c
      end
  end.

(** ** VariableDerivativeVarSet *)

Module VariableDerivativeVarSet.

(** The three sets of an instance: integer directions, [Index] objects
    (by their count) and variables (by their label). *)
Record t := mk {
  fixed_spatial_directions : gset nat;
  open_spatial_directions : gset nat;
  variables : gset nat
}.

(** [__eq__]. *)
Definition eq_ (self other : t) : bool :=
  bool_decide (fixed_spatial_directions self = fixed_spatial_directions other)
  && (size (open_spatial_directions self) =? size (open_spatial_directions other))%nat
  && bool_decide (variables self = variables other).

End VariableDerivativeVarSet.

(** * Properties *)

(** ** The dependency set lattice *)

Section DependencySet_facts.

Implicit Types a b c : DependencySet.

Lemma cmp_loop_covers_loop (l : list (bool * bool)) :
  (cmp_loop l =? 0)%Z = covers_loop l.
Proof.
  induction l as [|[[] []] l IH]; simpl; auto.
Qed.

(** [==] is [covers]: the comparison never answers [+1]. *)
Lemma DependencySet_eq_covers a b :
  DependencySet_eq a b = DependencySet_covers a b.
Proof. apply cmp_loop_covers_loop. Qed.

Lemma DependencySet_ne_covers a b :
  DependencySet_ne a b = negb (DependencySet_covers a b).
Proof. unfold DependencySet_ne. f_equal. apply cmp_loop_covers_loop. Qed.

Lemma DependencySet_iter_inj a b :
  DependencySet_iter a = DependencySet_iter b → a = b.
Proof.
  destruct a, b; unfold DependencySet_iter; simpl. congruence.
Qed.

Lemma covers_loop_refl (l : list bool) : covers_loop (zip l l) = true.
Proof. induction l as [|[] l IH]; simpl; auto. Qed.

Lemma DependencySet_covers_refl a : DependencySet_covers a a = true.
Proof. apply covers_loop_refl. Qed.

(** Pointwise reading of [covers] for flag tuples of equal length. *)
Lemma covers_loop_lookup (la lb : list bool) :
  length la = length lb →
  covers_loop (zip la lb) = true ↔
  ∀ i : nat, lb !! i = Some true → la !! i = Some true.
Proof.
  revert lb. induction la as [|x la IH]; intros [|y lb] Hlen; simpl in *; try lia.
  - split; [intros _ i Hi; by destruct i | done].
  - injection Hlen as Hlen. specialize (IH lb Hlen).
    destruct y, x; simpl; rewrite ?IH; split.
    all: try (intros H [|i] Hi; simpl in *; [done || congruence | by apply H]).
    all: try (intros H i Hi; apply (H (S i)); done).
    all: try done.
    intros H. specialize (H 0%nat eq_refl). simpl in H. congruence.
Qed.

Lemma covers_loop_antisym (la lb : list bool) :
  length la = length lb →
  covers_loop (zip la lb) = true → covers_loop (zip lb la) = true → la = lb.
Proof.
  revert lb. induction la as [|x la IH]; intros [|y lb] Hlen; simpl in *; try lia.
  - done.
  - injection Hlen as Hlen. destruct x, y; simpl; try done.
    all: intros H1 H2; f_equal; by apply IH.
Qed.

Lemma DependencySet_iter_length a b :
  length (basisfunctions a) = length (basisfunctions b) →
  length (DependencySet_iter a) = length (DependencySet_iter b).
Proof. unfold DependencySet_iter. simpl. lia. Qed.

Lemma DependencySet_covers_antisym a b :
  length (basisfunctions a) = length (basisfunctions b) →
  DependencySet_covers a b = true → DependencySet_covers b a = true → a = b.
Proof.
  intros Hlen H1 H2. apply DependencySet_iter_inj.
  apply covers_loop_antisym; auto using DependencySet_iter_length.
Qed.

(** A stored key matches exactly the keys with the same flags. *)
Lemma key_match_iff a b : key_match a b = true ↔ a = b.
Proof.
  unfold key_match. rewrite andb_true_iff, bool_decide_eq_true. split.
  - intros [H _]. by apply DependencySet_iter_inj.
  - intros ->. split; [done|].
    rewrite DependencySet_eq_covers. apply DependencySet_covers_refl.
Qed.









Lemma or_tuples_length (la lb : list bool) :
  length la = length lb → length (or_tuples la lb) = length la.
Proof. intros H. unfold or_tuples. rewrite length_zip_with. lia. Qed.

Lemma covers_loop_or_l (la lb : list bool) :
  covers_loop (zip (zip_with orb la lb) la) = true.
Proof.
  revert lb. induction la as [|x la IH]; intros [|y lb]; simpl; auto.
  destruct x; simpl; auto.
Qed.

Lemma DependencySet_covers_or_l a b :
  DependencySet_covers (DependencySet_or a b) a = true.
Proof.
  unfold DependencySet_covers, DependencySet_iter, DependencySet_or; simpl.
  destruct (runtime a), (coordinates a); simpl; apply covers_loop_or_l.
Qed.




End DependencySet_facts.

(** ** Methods on stored instances leave their operands alone *)




(** C3 (the comparison as the code computes it). With flag tuples of
    equal length, [a = ((True,), runtime False, coordinates False)] and
    [b = ((False,), False, False)] differ in a basis function flag, yet
    [a.__cmp__(b)] is [0] and [a == b] is true: the test [a > 1] of the
    loop never holds for a boolean, so the comparison answers [0] as soon
    as no flag of [a] is below the flag of [b]. The hash of an instance is
    that of its flag tuple, equal exactly for equal flags. *)
Theorem DependencySet_eq_differing_flags :
  length (basisfunctions (mkDependencySet [true] false false))
  = length (basisfunctions (mkDependencySet [false] false false)) ∧
  DependencySet_iter (mkDependencySet [true] false false)
  ≠ DependencySet_iter (mkDependencySet [false] false false) ∧
  DependencySet_cmp (mkDependencySet [true] false false)
                    (mkDependencySet [false] false false) = 0%Z ∧
  DependencySet_eq (mkDependencySet [true] false false)
                   (mkDependencySet [false] false false) = true ∧
  DependencySet_eq (mkDependencySet [false] false false)
                   (mkDependencySet [true] false false) = false ∧
  (∀ a b, DependencySet_eq a b = DependencySet_covers a b) ∧
  (∀ a b, DependencySet_hash a = DependencySet_hash b ↔ a = b).
Proof.
  split_and!; try done.
  - apply DependencySet_eq_covers.
  - intros a b. split; [apply DependencySet_iter_inj | by intros ->].
Qed.



(** ** The stacks *)

Section stacks_facts.

Implicit Types (st : list (DependencySet * list VariableInfo)).
Implicit Types (d k : DependencySet) (vi : VariableInfo).

Lemma stacks_append_keys st d vi :
  ((stacks_append st d vi).*1 = st.*1) ∨
  ((d ∉ st.*1) ∧ (stacks_append st d vi).*1 = st.*1 ++ [d]).
Proof.
  induction st as [|[k stack] st IH]; csimpl.
  - right. split; [apply not_elem_of_nil | done].
  - destruct (key_match k d) eqn:Hk; csimpl; [by left|].
    destruct IH as [IH|[Hd IH]]; [left; by rewrite IH|right].
    split; [|by rewrite IH].
    apply not_elem_of_cons. split; [|done].
    intros ->. rewrite (proj2 (key_match_iff k k) eq_refl) in Hk. done.
Qed.

Lemma stacks_append_keys_nodup st d vi :
  NoDup st.*1 → NoDup (stacks_append st d vi).*1.
Proof.
  intros Hnd. destruct (stacks_append_keys st d vi) as [->|[Hd ->]]; [done|].
  apply NoDup_app. split_and!; [done | | apply NoDup_singleton].
  intros x Hx Hx'. apply list_elem_of_singleton in Hx' as ->. done.
Qed.

Lemma stacks_append_concat st d vi :
  concat (stacks_append st d vi).*2 ≡ₚ vi :: concat st.*2.
Proof.
  induction st as [|[k stack] st IH]; csimpl; [done|].
  destruct (key_match k d); csimpl.
  - rewrite <- app_assoc. simpl.
    rewrite <- Permutation_middle. done.
  - rewrite IH. by rewrite Permutation_middle.
Qed.

Lemma stacks_append_new st d vi :
  ∃ stack, (d, stack) ∈ stacks_append st d vi ∧ vi ∈ stack.
Proof.
  induction st as [|[k stack] st IH]; simpl.
  - exists [vi]. split; [by left | by left].
  - destruct (key_match k d) eqn:Hk.
    + apply key_match_iff in Hk as ->. exists (stack ++ [vi]).
      split; [by left | apply elem_of_app; right; by left].
    + destruct IH as (stack' & H1 & H2). exists stack'. split; [by right | done].
Qed.

Lemma stacks_append_old st d vi k stack :
  (k, stack) ∈ st →
  ∃ stack', (k, stack') ∈ stacks_append st d vi ∧ ∀ x, x ∈ stack → x ∈ stack'.
Proof.
  induction st as [|[k0 stack0] st IH]; simpl; [by intros ?%elem_of_nil|].
  intros [Heq|Hin]%elem_of_cons.
  - injection Heq as -> ->. destruct (key_match k0 d).
    + exists (stack0 ++ [vi]). split; [by left|].
      intros x Hx. apply elem_of_app. by left.
    + exists stack0. split; [by left | done].
  - destruct (key_match k0 d).
    + exists stack. split; [by right | done].
    + destruct (IH Hin) as (stack' & H1 & H2). exists stack'. split; [by right | done].
Qed.

Lemma stacks_append_inv st d vi k stack x :
  (k, stack) ∈ stacks_append st d vi → x ∈ stack →
  (∃ stack0, (k, stack0) ∈ st ∧ x ∈ stack0) ∨ (k = d ∧ x = vi).
Proof.
  induction st as [|[k0 stack0] st IH]; simpl.
  - intros Hk%list_elem_of_singleton Hx. injection Hk as -> ->.
    apply list_elem_of_singleton in Hx. by right.
  - destruct (key_match k0 d) eqn:Hk.
    + intros [Heq|Hin]%elem_of_cons Hx.
      * injection Heq as -> ->. apply key_match_iff in Hk as ->.
        apply elem_of_app in Hx as [Hx| ->%list_elem_of_singleton]; [left|by right].
        exists stack0. split; [by left | done].
      * left. exists stack. split; [by right | done].
    + intros [Heq|Hin]%elem_of_cons Hx.
      * injection Heq as -> ->. left. exists stack0. split; [by left | done].
      * destruct (IH Hin Hx) as [(s0 & H1 & H2)|?]; [left|by right].
        exists s0. split; [by right | done].
Qed.

End stacks_facts.

(** ** Running the monad *)

Lemma bind_Ok {A B} (m : M A) (k : A → M B) (s : State) (r : B * State) :
  bind m k s = Ok r ↔ ∃ a s1, m s = Ok (a, s1) ∧ k a s1 = Ok r.
Proof.
  unfold bind. destruct (m s) as [[a s1]|e]; split.
  - intros H. by exists a, s1.
  - intros (a' & s1' & Heq & H). by injection Heq as -> ->.
  - done.
  - by intros (? & ? & ? & ?).
Qed.

Lemma grows_refl (s : State) : grows s s.
Proof. by split_and!. Qed.

Lemma grows_trans (s1 s2 s3 : State) : grows s1 s2 → grows s2 s3 → grows s1 s3.
Proof.
  intros (H1 & H2 & H3 & H4) (H1' & H2' & H3' & H4').
  split_and!; [by etrans | auto | lia | lia].
Qed.

Lemma registered_grows (s s' : State) (v : Expr) (d : DependencySet) :
  grows s s' → registered (codestructure s) v d → registered (codestructure s') v d.
Proof.
  intros (Hsub & Hst & _) (i & e & c & vi & -> & Hc & Hv & Hd & Hin).
  exists i, e, c, vi. split_and!; auto.
  eapply lookup_weaken; eauto.
Qed.

Lemma elem_of_concat {A} (x : A) (ls : list (list A)) :
  x ∈ concat ls ↔ ∃ l, x ∈ l ∧ l ∈ ls.
Proof.
  induction ls as [|l ls IH]; simpl.
  - split; [by intros ?%elem_of_nil | by intros (? & _ & ?%elem_of_nil)].
  - rewrite elem_of_app, IH. split.
    + intros [H|(l' & H1 & H2)]; [exists l; split; [done | by left]|].
      exists l'. split; [done | by right].
    + intros (l' & H1 & [->|H2]%elem_of_cons); [by left|right; eauto].
Qed.

(** ** Registration *)

(** What [register_expression] returns and does to the state, by the
    count it registers under. *)
Lemma register_expression_spec (e : Expr) (d : DependencySet)
    (count : option nat) (s : State) :
  ∃ vi s',
    register_expression e d count s = Ok (vi, s') ∧
    variableinfo (codestructure s') !! registration_label e count s = Some vi ∧
    (next_id s ≤ next_id s')%nat ∧
    (Label_globalcount s ≤ Label_globalcount s')%nat ∧
    match variableinfo (codestructure s) !! registration_label e count s with
    | Some vi0 => vi = vi0 ∧ codestructure s' = codestructure s
    | None =>
        deps vi = d ∧ (next_id s ≤ vi_id vi < next_id s')%nat ∧
        variable vi =
          (if isinstance_Variable e && bool_decide (count = None) then e
           else Variable_ (next_id s) e (registration_label e count s)) ∧
        (isinstance_Variable e && bool_decide (count = None) = false →
         (registration_label e count s < Label_globalcount s')%nat) ∧
        codestructure s' =
          mkCodeStructure
            (<[registration_label e count s := vi]> (variableinfo (codestructure s)))
            (stacks_append (stacks (codestructure s)) d vi)
    end.
Proof.
  unfold register_expression, bind, new_Variable, new_Label, new_id, ret,
    variableinfo_get, new_VariableInfo, codestructure_add, registration_label.
  destruct count as [c|]; [|destruct e as [i cls|i e' c|i cls ops]]; simpl;
    match goal with
    | |- context [variableinfo (codestructure s) !! ?c] =>
        destruct (variableinfo (codestructure s) !! c) as [vi0|] eqn:Hc
    end; simpl.
  all: eexists _, _; split; [reflexivity|]; simpl.
  all: rewrite ?lookup_insert_eq.
  all: split_and!; try done; try lia.
  by rewrite andb_false_r.
Qed.

Lemma register_expression_inv (e : Expr) (d : DependencySet)
    (count : option nat) (s : State) (vi : VariableInfo) (s' : State) :
  cs_inv s →
  (count = None → ∀ i e' c, e = Variable_ i e' c →
                            is_Some (variableinfo (codestructure s) !! c)) →
  register_expression e d count s = Ok (vi, s') →
  cs_inv s' ∧ grows s s'.
Proof.
  intros [Hf Hl Hs Hk Hkn Hin] Hvar Hreg.
  destruct (register_expression_spec e d count s)
    as (vi1 & s1 & Heq & Hlook & Hid & Hg & Hcase).
  rewrite Hreg in Heq. injection Heq as <- <-.
  destruct (variableinfo (codestructure s) !! registration_label e count s)
    as [vi0|] eqn:Hc.
  - destruct Hcase as [-> Hcs]. split.
    + split; unfold labels_fresh; rewrite ?Hcs; auto.
      * intros c vi Hvi. specialize (Hf c vi Hvi). lia.
      * intros k stack vi Hks Hvi. destruct (Hk k stack vi Hks Hvi). split; [done|lia].
    + unfold grows. rewrite Hcs. by split_and!.
  - destruct Hcase as (Hd & Hvid & Hv & Hlab & Hcs).
    assert (Hnv : isinstance_Variable e && bool_decide (count = None) = false).
    { destruct (isinstance_Variable e) eqn:He; [|done].
      destruct count; [done|]. destruct e; try done.
      destruct (Hvar eq_refl _ _ _ eq_refl) as [x Hx]. simpl in Hc. congruence. }
    rewrite Hnv in Hv. specialize (Hlab Hnv).
    assert (Hnew : in_stack (codestructure s') vi).
    { unfold in_stack. rewrite Hcs, Hd. simpl. apply stacks_append_new. }
    assert (Hold : ∀ x, in_stack (codestructure s) x → in_stack (codestructure s') x).
    { intros x (stack & H1 & H2). unfold in_stack. rewrite Hcs. simpl.
      destruct (stacks_append_old _ d vi _ _ H1) as (stack' & H3 & H4).
      exists stack'. auto. }
    split.
    + split; unfold labels_fresh; rewrite ?Hcs; simpl.
      * intros c x Hx. apply lookup_insert_Some in Hx as [[<- <-]|[Hne Hx]]; [done|].
        specialize (Hf c x Hx). lia.
      * intros c x Hx. apply lookup_insert_Some in Hx as [[<- <-]|[Hne Hx]]; eauto.
      * rewrite Hcs in Hnew, Hold.
        intros c x Hx. apply lookup_insert_Some in Hx as [[<- <-]|[Hne Hx]]; [done|].
        apply Hold. eauto.
      * intros k stack x Hks Hx.
        destruct (stacks_append_inv _ _ _ _ _ _ Hks Hx) as [(st0 & H1 & H2)|[-> ->]].
        -- destruct (Hk _ _ _ H1 H2). split; [done|lia].
        -- split; [done|lia].
      * by apply stacks_append_keys_nodup.
      * rewrite stacks_append_concat. csimpl. apply NoDup_cons. split; [|done].
        intros (x & Hx1 & Hx2)%list_elem_of_fmap.
        apply elem_of_concat in Hx2 as (stack & Hx2 & Hst).
        apply list_elem_of_fmap in Hst as ([k stack'] & -> & Hst). simpl in *.
        destruct (Hk _ _ _ Hst Hx2). lia.
    + unfold grows. split_and!; [|done|lia|lia].
      rewrite Hcs. simpl. by apply insert_subseteq.
Qed.

(** C6. When the label under which [register_expression] registers is
    present in [variableinfo], the call answers the info stored there
    and leaves [variableinfo] and the stacks as they are: nothing is
    overwritten, nothing is appended, and the call does not fail. *)
Theorem register_expression_existing_label (e : Expr) (d : DependencySet)
    (count : option nat) (s : State) (vinfo : VariableInfo) :
  variableinfo (codestructure s) !! registration_label e count s = Some vinfo →
  ∃ s', register_expression e d count s = Ok (vinfo, s') ∧
        variableinfo (codestructure s') = variableinfo (codestructure s) ∧
        stacks (codestructure s') = stacks (codestructure s).
Proof.
  intros Hc.
  destruct (register_expression_spec e d count s) as (vi & s' & Hreg & _ & _ & _ & Hcase).
  rewrite Hc in Hcase. destruct Hcase as [-> Hcs].
  exists s'. by rewrite Hcs.
Qed.

Lemma register_expression_existing_label_witness :
  ∃ s',
    register_expression (Terminal 0 Zero) (mkDependencySet [true] true true)
      (Some 5%nat) one_variable_state
    = Ok (zero_info, s') ∧
    variableinfo (codestructure s') = variableinfo (codestructure one_variable_state) ∧
    stacks (codestructure s') = stacks (codestructure one_variable_state).
Proof.
  apply (register_expression_existing_label (Terminal 0 Zero)
           (mkDependencySet [true] true true) (Some 5%nat) one_variable_state).
  vm_compute. reflexivity.
Defined.

(** ** Unions of operand dependencies *)

Lemma DependencySet_or_iter (a b : DependencySet) :
  DependencySet_iter (DependencySet_or a b)
  = zip_with orb (DependencySet_iter a) (DependencySet_iter b).
Proof. reflexivity. Qed.

Lemma DependencySet_or_length (a b : DependencySet) (n : nat) :
  length (basisfunctions a) = n → length (basisfunctions b) = n →
  length (basisfunctions (DependencySet_or a b)) = n.
Proof. intros Ha Hb. simpl. rewrite or_tuples_length; congruence. Qed.

Lemma DependencySet_or_lookup (a b : DependencySet) (j : nat) :
  length (basisfunctions a) = length (basisfunctions b) →
  DependencySet_iter (DependencySet_or a b) !! j = Some true ↔
  DependencySet_iter a !! j = Some true ∨ DependencySet_iter b !! j = Some true.
Proof.
  intros Hlen%DependencySet_iter_length.
  rewrite DependencySet_or_iter, lookup_zip_with_Some. split.
  - intros (x & y & Hxy & Hx & Hy). symmetry in Hxy.
    apply orb_true_iff in Hxy as [->| ->]; auto.
  - intros [Ha|Hb].
    + destruct (lookup_lt_is_Some_2 (DependencySet_iter b) j) as [y Hy].
      { rewrite <- Hlen. eapply lookup_lt_Some; eauto. }
      exists true, y. by split_and!.
    + destruct (lookup_lt_is_Some_2 (DependencySet_iter a) j) as [x Hx].
      { rewrite Hlen. eapply lookup_lt_Some; eauto. }
      exists x, true. split_and!; auto. by destruct x.
Qed.

Lemma fold_or_spec (rest : list (Expr * DependencySet)) (d0 : DependencySet) (n : nat) :
  length (basisfunctions d0) = n →
  Forall (λ o, length (basisfunctions o.2) = n) rest →
  let d := fold_left (λ d o, DependencySet_or d o.2) rest d0 in
  length (basisfunctions d) = n ∧
  ∀ j : nat, DependencySet_iter d !! j = Some true ↔
             DependencySet_iter d0 !! j = Some true ∨
             ∃ o, o ∈ rest ∧ DependencySet_iter o.2 !! j = Some true.
Proof.
  revert d0. induction rest as [|o rest IH]; intros d0 Hd0 Hrest; simpl.
  - split; [done|]. intros j. split; [by left|].
    intros [H|(o & Ho%elem_of_nil & _)]; done.
  - apply Forall_cons in Hrest as [Ho Hrest].
    destruct (IH (DependencySet_or d0 o.2)) as [Hlen Hj]; auto.
    { by apply DependencySet_or_length. }
    split; [done|]. intros j. rewrite Hj, DependencySet_or_lookup by congruence.
    split.
    + intros [[H|H]|(o' & Ho' & H)]; auto.
      * right. exists o. split; [by left | done].
      * right. exists o'. split; [by right | done].
    + intros [H|(o' & [->|Ho']%elem_of_cons & H)]; auto.
      right. eauto.
Qed.

(** Against the union [d] of its operands, [o != d] of the source tells
    whether the dependency set of an operand differs from [d]. *)
Lemma DependencySet_ne_union (o d : DependencySet) :
  length (basisfunctions o) = length (basisfunctions d) →
  DependencySet_covers d o = true →
  DependencySet_ne o d = true ↔ o ≠ d.
Proof.
  intros Hlen Hcov. rewrite DependencySet_ne_covers, negb_true_iff. split.
  - intros H ->. by rewrite DependencySet_covers_refl in H.
  - intros Hne. destruct (DependencySet_covers o d) eqn:Hc; [|done].
    destruct Hne. by apply DependencySet_covers_antisym.
Qed.

(** ** The transformer *)

Lemma Expr_ind_nested (P : Expr → Prop) :
  (∀ i cls, P (Terminal i cls)) →
  (∀ i e c, P e → P (Variable_ i e c)) →
  (∀ i cls ops, Forall P ops → P (Operator i cls ops)) →
  ∀ e, P e.
Proof.
  intros HT HV HO. fix IH 1. intros [i cls|i e c|i cls ops].
  - apply HT.
  - apply HV, IH.
  - apply HO. induction ops as [|o ops IHops]; constructor; [apply IH | apply IHops].
Qed.

Section transformer_facts.

Variable formdata : FormData.
Variable basisfunction_deps : list DependencySet.
Variable function_deps : list DependencySet.

#[local] Abbreviation Visit := (visit formdata basisfunction_deps function_deps).
#[local] Abbreviation VisitAll := (visit_all formdata basisfunction_deps function_deps).
#[local] Abbreviation Handle := (handle formdata basisfunction_deps function_deps).
#[local] Abbreviation HandleAll := (handle_all formdata basisfunction_deps function_deps).

Lemma visit_Operator (i : nat) (cls : operator_class) (ops : list Expr) :
  Visit (Operator i cls ops) =
  bind (VisitAll ops)
    (λ rs, match cls with
           | SpatialDerivative =>
               match rs with
               | [f; ii] =>
                   spatial_derivative basisfunction_deps (Operator i cls ops) f ii
               | _ => raise TypeError
               end
           | _ => expr (Operator i cls ops) rs
           end).
Proof. reflexivity. Qed.

Lemma visit_all_cons (o : Expr) (ops : list Expr) :
  VisitAll (o :: ops) =
  bind (Visit o) (λ r, bind (VisitAll ops) (λ rs, ret (r :: rs))).
Proof. reflexivity. Qed.

Lemma res_ok_grows (s s' : State) (r : Expr * DependencySet) :
  grows s s' → res_ok s r → res_ok s' r.
Proof. intros Hg Hr Hv. eapply registered_grows; eauto. Qed.

Lemma fresh_label_unregistered (s : State) :
  cs_inv s → variableinfo (codestructure s) !! Label_globalcount s = None.
Proof.
  intros Hinv. destruct (variableinfo (codestructure s) !! Label_globalcount s) eqn:H; [|done].
  apply (inv_fresh _ Hinv) in H. lia.
Qed.

(** The loop of [expr] always runs to its end and promotes each operand. *)
Lemma promote_ops_spec (ops : list (Expr * DependencySet)) (s : State) :
  cs_inv s → Forall (res_ok s) ops →
  ∃ ops' s', promote_ops ops s = Ok (ops', s') ∧
             cs_inv s' ∧ grows s s' ∧
             Forall2 (promoted (codestructure s')) ops ops'.
Proof.
  revert s. induction ops as [|o ops IH]; intros s Hinv Hok.
  - exists [], s. split_and!; [done | done | apply grows_refl | constructor].
  - apply Forall_cons in Hok as [Ho Hok]. simpl.
    destruct (isinstance_skiptypes o.1) eqn:Hskip.
    + destruct (IH s Hinv Hok) as (ops' & s' & Hrun & Hinv' & Hg & Hall).
      exists (o :: ops'), s'. split_and!; auto.
      * unfold bind, ret in *. by rewrite Hrun.
      * constructor; [|done]. unfold promoted. by rewrite Hskip.
    + destruct (register_expression_spec o.1 o.2 None s)
        as (vi & s1 & Hreg & Hlook & _ & _ & Hcase).
      destruct (register_expression_inv o.1 o.2 None s vi s1 Hinv) as [Hinv1 Hg1];
        [|done|].
      { intros _ i e' c He. unfold res_ok in Ho. rewrite He in Ho.
        destruct (Ho eq_refl) as (? & ? & ? & vi0 & Heq & Hc & _).
        injection Heq as <- <- <-. eauto. }
      assert (Hp : promoted (codestructure s1) o (variable vi, deps vi)).
      { unfold promoted. rewrite Hskip. simpl.
        destruct (isinstance_Variable o.1) eqn:Hvar.
        - destruct (Ho Hvar) as (i & e & c & vi0 & Heq & Hc & Hv0 & Hd0 & Hin0).
          rewrite Heq in Hcase, Hlook. simpl in Hcase, Hlook. rewrite Hc in Hcase.
          destruct Hcase as [-> Hcs]. rewrite Hv0, Hd0. split_and!; [|done|done].
          exists i, e, c, vi0. rewrite Hcs. by split_and!.
        - assert (Hc : registration_label o.1 None s = Label_globalcount s).
          { by destruct o.1. }
          rewrite Hc, (fresh_label_unregistered s Hinv) in Hcase. rewrite Hc in Hlook.
          destruct Hcase as (Hd & _ & Hv & _ & _). simpl in Hv.
          rewrite Hv, Hd. split_and!; [|done|eauto].
          exists (next_id s), o.1, (Label_globalcount s), vi.
          split_and!; auto. eapply inv_in_stack; eauto. }
      destruct (IH s1 Hinv1) as (ops' & s' & Hrun & Hinv' & Hg & Hall).
      { eapply Forall_impl; [exact Hok|]. intros r. by apply res_ok_grows. }
      exists ((variable vi, deps vi) :: ops'), s'. split_and!; auto.
      * unfold bind, ret in *. by rewrite Hreg, Hrun.
      * by eapply grows_trans.
      * constructor; [|done]. unfold promoted in *. rewrite Hskip in *.
        destruct Hp as (Hp1 & Hp2 & Hp3). split_and!; auto.
        eapply registered_grows; eauto.
Qed.

Lemma cs_inv_new_id (s : State) :
  cs_inv s →
  cs_inv (mkState (codestructure s) (S (next_id s)) (Label_globalcount s)) ∧
  grows s (mkState (codestructure s) (S (next_id s)) (Label_globalcount s)).
Proof.
  intros [Hf Hl Hs Hk Hkn Hin]. split.
  - split; simpl; auto. intros k stack vi H1 H2.
    destruct (Hk k stack vi H1 H2). split; [done|lia].
  - unfold grows. simpl. split_and!; auto.
Qed.

(** [expr] on an operator node with at least one visited operand. *)
Lemma expr_spec (i : nat) (cls : operator_class) (operands : list Expr)
    (o0 : Expr * DependencySet) (rest : list (Expr * DependencySet)) (s : State) :
  cs_inv s → Forall (res_ok s) (o0 :: rest) →
  ∃ ops' e' s',
    expr (Operator i cls operands) (o0 :: rest) s
    = Ok ((e', combine_deps o0 rest), s') ∧
    cs_inv s' ∧ grows s s' ∧
    (if existsb (λ o, DependencySet_ne o.2 (combine_deps o0 rest)) (o0 :: rest)
     then Forall2 (promoted (codestructure s')) (o0 :: rest) ops'
     else ops' = o0 :: rest ∧ codestructure s' = codestructure s) ∧
    node_over (Operator i cls operands) (map fst ops') e'.
Proof.
  intros Hinv Hok. unfold expr.
  set (d := combine_deps o0 rest).
  assert (Hfin : ∀ (ops' : list (Expr * DependencySet)) s1, cs_inv s1 → grows s s1 →
    ∃ e' s',
      (if all_is (map fst ops') (Operator i cls operands)
       then ret (Operator i cls operands, d)
       else let* e := construct (Operator i cls operands) (map fst ops') in ret (e, d)) s1
      = Ok ((e', d), s') ∧
      cs_inv s' ∧ grows s s' ∧ codestructure s' = codestructure s1 ∧
      node_over (Operator i cls operands) (map fst ops') e').
  { intros ops' s1 Hinv1 Hg1.
    destruct (all_is (map fst ops') (Operator i cls operands)) eqn:Hall.
    - exists (Operator i cls operands), s1. split_and!; auto. by left.
    - destruct (cs_inv_new_id s1 Hinv1) as [Hinv2 Hg2].
      eexists _, _. split; [reflexivity|]. split_and!; auto.
      + by eapply grows_trans.
      + right. split; [done|]. by eexists _, _, _, _. }
  destruct (existsb (λ o, DependencySet_ne o.2 d) (o0 :: rest)) eqn:Hex.
  - destruct (promote_ops_spec (o0 :: rest) s Hinv Hok)
      as (ops' & s1 & Hrun & Hinv1 & Hg1 & Hall).
    destruct (Hfin ops' s1 Hinv1 Hg1) as (e' & s' & Hres & Hinv' & Hg' & Hcs & Hnode).
    exists ops', e', s'. split_and!; auto.
    + unfold bind at 1. by rewrite Hrun.
    + by rewrite Hcs.
  - destruct (Hfin (o0 :: rest) s Hinv (grows_refl s))
      as (e' & s' & Hres & Hinv' & Hg' & Hcs & Hnode).
    exists (o0 :: rest), e', s'. by split_and!.
Qed.

(** [spatial_derivative] on a node with a first operand. *)
Lemma spatial_derivative_spec (x : Expr) (o0 : Expr) (rest : list Expr)
    (f ii : Expr * DependencySet) (s : State) :
  operands_of x = o0 :: rest →
  (∃ i cls ops, x = Operator i cls ops) →
  ∃ e' s',
    spatial_derivative basisfunction_deps x f ii s
    = Ok ((e', DependencySet_or f.2 (runtime_deps basisfunction_deps)), s') ∧
    (cs_inv s → cs_inv s') ∧ grows s s' ∧ codestructure s' = codestructure s ∧
    (if is_ f.1 o0 then e' = x ∧ s' = s
     else ∃ i' cls old, x = Operator i' cls old ∧
                        e' = Operator (next_id s) cls [f.1; ii.1]).
Proof.
  intros Hops (i & cls & ops & ->). unfold spatial_derivative. rewrite Hops.
  destruct (is_ f.1 o0).
  - exists (Operator i cls ops), s. split_and!; auto using grows_refl.
  - eexists _, _. split; [reflexivity|]. simpl. split_and!; auto.
    + intros Hinv. by apply cs_inv_new_id.
    + unfold grows. simpl. split_and!; auto.
    + by eexists _, _, _.
Qed.

Lemma res_ok_not_Variable (s : State) (e : Expr) (d : DependencySet) :
  isinstance_Variable e = false → res_ok s (e, d).
Proof. unfold res_ok. simpl. by intros ->. Qed.

Lemma variable_spec (i : nat) (e : Expr) (c : nat) (s : State) :
  variable_ (Variable_ i e c) s =
  match variableinfo (codestructure s) !! c with
  | Some vinfo => Ok ((variable vinfo, deps vinfo), s)
  | None => Raise (UFLException "Haven't handled variable in time")
  end.
Proof.
  unfold variable_, bind, variableinfo_get. simpl.
  by destruct (variableinfo (codestructure s) !! c).
Qed.

Lemma registered_lookup (s : State) (c : nat) (vi : VariableInfo) :
  cs_inv s → variableinfo (codestructure s) !! c = Some vi →
  registered (codestructure s) (variable vi) (deps vi).
Proof.
  intros Hinv Hc. destruct (inv_label _ Hinv c vi Hc) as (i & e & Hv).
  exists i, e, c, vi. split_and!; auto. eapply inv_in_stack; eauto.
Qed.

(** Visiting keeps the invariant, only adds to the code structure, and
    answers a variable only when it is registered with the dependency
    set answered. *)
Lemma visit_inv (o : Expr) :
  ∀ s r s', cs_inv s → Visit o s = Ok (r, s') →
            cs_inv s' ∧ grows s s' ∧ res_ok s' r.
Proof.
  induction o as [i cls|i e c IH|i cls ops IH] using Expr_ind_nested;
    intros s r s' Hinv Hrun.
  - assert (Hr : s' = s ∧ r.1 = Terminal i cls).
    { destruct cls; simpl in Hrun;
        unfold terminal, facet_normal, basis_function, function, ret, raise in Hrun;
        repeat case_match; simplify_eq; done. }
    destruct Hr as [-> Hr]. split_and!; [done | apply grows_refl |].
    destruct r as [e d]. simpl in Hr. subst e. by apply res_ok_not_Variable.
  - change (Visit (Variable_ i e c) s) with (variable_ (Variable_ i e c) s) in Hrun.
    rewrite variable_spec in Hrun.
    destruct (variableinfo (codestructure s) !! c) as [vi|] eqn:Hc; [|done].
    injection Hrun as <- <-. split_and!; [done | apply grows_refl |].
    intros _. simpl. by apply registered_lookup with c.
  - rewrite visit_Operator in Hrun.
    apply bind_Ok in Hrun as (rs & s1 & Hall & Hrun).
    assert (Hrs : cs_inv s1 ∧ grows s s1 ∧ Forall (res_ok s1) rs).
    { clear Hrun. revert s rs s1 Hinv Hall.
      induction IH as [|o ops Ho _ IHops]; intros s rs s1 Hinv Hall.
      - injection Hall as <- <-. split_and!; [done | apply grows_refl | constructor].
      - rewrite visit_all_cons in Hall.
        apply bind_Ok in Hall as (r0 & s0 & Hr0 & Hall).
        apply bind_Ok in Hall as (rs0 & s2 & Hrs0 & Hret).
        injection Hret as <- <-.
        destruct (Ho _ _ _ Hinv Hr0) as (Hinv0 & Hg0 & Hok0).
        destruct (IHops _ _ _ Hinv0 Hrs0) as (Hinv2 & Hg2 & Hok2).
        split_and!; [done | by eapply grows_trans |].
        constructor; [by eapply res_ok_grows | done]. }
    destruct Hrs as (Hinv1 & Hg1 & Hok1).
    assert (Hexpr : ∀ r s', expr (Operator i cls ops) rs s1 = Ok (r, s') →
                            cs_inv s' ∧ grows s s' ∧ res_ok s' r).
    { intros r1 s1' Hrun1. destruct rs as [|o0 rest]; [done|].
      destruct (expr_spec i cls ops o0 rest s1 Hinv1 Hok1)
        as (ops' & e' & s2 & Heq & Hinv2 & Hg2 & _ & Hnode).
      rewrite Hrun1 in Heq. injection Heq as -> ->.
      split_and!; [done | by eapply grows_trans |].
      apply res_ok_not_Variable.
      destruct Hnode as [[-> _]|(_ & ? & ? & ? & ? & _ & ->)]; done. }
    destruct cls; try (by apply Hexpr).
    destruct rs as [|f [|ii [|? ?]]]; try done.
    destruct ops as [|o0 ops']; [done|].
    destruct (spatial_derivative_spec (Operator i SpatialDerivative (o0 :: ops'))
                o0 ops' f ii s1 eq_refl) as (e' & s2 & Heq & Hinv2 & Hg2 & _ & Hcase);
      [by eexists _, _, _|].
    rewrite Hrun in Heq. injection Heq as -> ->.
    split_and!; [auto | by eapply grows_trans |].
    apply res_ok_not_Variable.
    destruct (is_ f.1 o0); [by destruct Hcase as [-> _]|].
    by destruct Hcase as (? & ? & ? & _ & ->).
Qed.

Lemma visit_all_inv (ops : list Expr) :
  ∀ s rs s', cs_inv s → VisitAll ops s = Ok (rs, s') →
             cs_inv s' ∧ grows s s' ∧ Forall (res_ok s') rs.
Proof.
  induction ops as [|o ops IH]; intros s rs s' Hinv Hall.
  - injection Hall as <- <-. split_and!; [done | apply grows_refl | constructor].
  - rewrite visit_all_cons in Hall.
    apply bind_Ok in Hall as (r0 & s0 & Hr0 & Hall).
    apply bind_Ok in Hall as (rs0 & s2 & Hrs0 & Hret).
    injection Hret as <- <-.
    destruct (visit_inv o _ _ _ Hinv Hr0) as (Hinv0 & Hg0 & Hok0).
    destruct (IH _ _ _ Hinv0 Hrs0) as (Hinv2 & Hg2 & Hok2).
    split_and!; [done | by eapply grows_trans |].
    constructor; [by eapply res_ok_grows | done].
Qed.

(** [handle] answers the info stored under the label of its variable. *)
Lemma handle_inv (v : Expr) (s : State) (vi : VariableInfo) (s' : State) :
  cs_inv s → Handle v s = Ok (vi, s') →
  cs_inv s' ∧ grows s s' ∧
  ∃ i e c, v = Variable_ i e c ∧ variableinfo (codestructure s') !! c = Some vi.
Proof.
  intros Hinv Hrun. destruct v as [|i e c|]; try done.
  simpl in Hrun. unfold bind at 1 in Hrun. unfold variableinfo_get in Hrun.
  destruct (variableinfo (codestructure s) !! c) as [vi0|] eqn:Hc.
  - injection Hrun as <- <-. split_and!; [done | apply grows_refl | eauto].
  - apply bind_Ok in Hrun as (r & s1 & Hvis & Hreg).
    destruct (visit_inv e _ _ _ Hinv Hvis) as (Hinv1 & Hg1 & _).
    destruct (register_expression_inv r.1 r.2 (Some c) s1 vi s' Hinv1)
      as [Hinv2 Hg2]; [done | exact Hreg |].
    destruct (register_expression_spec r.1 r.2 (Some c) s1)
      as (vi1 & s2 & Heq & Hlook & _).
    rewrite Hreg in Heq. injection Heq as <- <-.
    split_and!; [done | by eapply grows_trans | eauto].
Qed.

Lemma handle_all_inv (variables : list Expr) :
  ∀ acc s r s', cs_inv s → HandleAll variables acc s = Ok (r, s') →
    cs_inv s' ∧ grows s s' ∧
    match last variables with
    | Some v => ∃ vi i e c, r = Some vi ∧ v = Variable_ i e c ∧
                            variableinfo (codestructure s') !! c = Some vi
    | None => r = acc
    end.
Proof.
  induction variables as [|v vs IH]; intros acc s r s' Hinv Hrun.
  - injection Hrun as <- <-. split_and!; [done | apply grows_refl | done].
  - simpl in Hrun. apply bind_Ok in Hrun as (vi & s1 & Hh & Hrun).
    destruct (handle_inv _ _ _ _ Hinv Hh) as (Hinv1 & Hg1 & i & e & c & -> & Hc).
    destruct (IH _ _ _ _ Hinv1 Hrun) as (Hinv' & Hg' & Hlast).
    split_and!; [done | by eapply grows_trans |].
    destruct vs as [|v' vs'].
    2:{ rewrite last_cons_cons. destruct (last (v' :: vs')) eqn:Hl; [done|].
        by apply last_None in Hl. }
    simpl in Hlast. subst r. injection Hrun as <-. simpl. eauto 10.
Qed.

(** C5. When the splitter visits a named variable whose label is
    registered in the code structure, it answers the variable and the
    dependency set cached in the registered info and leaves the state as
    it is; when the label is not registered, the visit raises the failure
    of the assertion and answers nothing. *)
Theorem variable_registered_or_fails (i : nat) (e : Expr) (c : nat) (s : State) :
  (∀ vinfo, variableinfo (codestructure s) !! c = Some vinfo →
     variable_ (Variable_ i e c) s = Ok ((variable vinfo, deps vinfo), s) ∧
     Visit (Variable_ i e c) s = Ok ((variable vinfo, deps vinfo), s)) ∧
  (variableinfo (codestructure s) !! c = None →
     ∃ message,
       variable_ (Variable_ i e c) s = Raise (UFLException message) ∧
       Visit (Variable_ i e c) s = Raise (UFLException message)).
Proof.
  change (Visit (Variable_ i e c) s) with (variable_ (Variable_ i e c) s).
  rewrite variable_spec. split.
  - by intros vinfo ->.
  - intros ->. by eexists.
Qed.

(** C9. For a spatial derivative node, [spatial_derivative] always
    answers, and the dependency set it answers is the union of the
    dependency set of the visited operand with the set whose runtime flag
    is true and whose other flags are all false; its coordinates flag is
    that of the operand. *)
Theorem spatial_derivative_deps (i : nat) (o0 : Expr) (rest : list Expr)
    (f ii : Expr * DependencySet) (s : State) :
  ∃ e' s',
    spatial_derivative basisfunction_deps
      (Operator i SpatialDerivative (o0 :: rest)) f ii s
    = Ok ((e', DependencySet_or f.2
                 (mkDependencySet
                    (replicate (length basisfunction_deps) false) true false)), s') ∧
    runtime (DependencySet_or f.2 (runtime_deps basisfunction_deps)) = true ∧
    coordinates (DependencySet_or f.2 (runtime_deps basisfunction_deps))
    = coordinates f.2 ∧
    (is_ f.1 o0 = true → e' = Operator i SpatialDerivative (o0 :: rest)) ∧
    (is_ f.1 o0 = false → e' = Operator (next_id s) SpatialDerivative [f.1; ii.1]).
Proof.
  destruct (spatial_derivative_spec (Operator i SpatialDerivative (o0 :: rest))
              o0 rest f ii s eq_refl) as (e' & s' & Heq & _ & _ & _ & Hcase);
    [by eexists _, _, _|].
  exists e', s'. split; [exact Heq|]. simpl.
  rewrite !orb_true_r, !orb_false_r. split_and!; try done.
  - intros Hi. rewrite Hi in Hcase. by destruct Hcase.
  - intros Hi. rewrite Hi in Hcase.
    destruct Hcase as (? & ? & ? & Hx & ->). by injection Hx as <- <- <-.
Qed.

Lemma cs_inv_initial (n g : nat) : cs_inv (mkState (mkCodeStructure ∅ []) n g).
Proof.
  split; unfold labels_fresh; simpl.
  1-3: by intros c vi ?%lookup_empty_Some.
  - by intros k stack vi ?%elem_of_nil.
  - constructor.
  - constructor.
Qed.

Lemma combine_deps_covers (o0 : Expr * DependencySet)
    (rest : list (Expr * DependencySet)) (n : nat) :
  Forall (λ o, length (basisfunctions o.2) = n) (o0 :: rest) →
  length (basisfunctions (combine_deps o0 rest)) = n ∧
  (∀ j : nat, DependencySet_iter (combine_deps o0 rest) !! j = Some true ↔
              ∃ o, o ∈ o0 :: rest ∧ DependencySet_iter o.2 !! j = Some true) ∧
  ∀ o, o ∈ o0 :: rest → DependencySet_covers (combine_deps o0 rest) o.2 = true.
Proof.
  intros Hlen. pose proof Hlen as Hlen'. apply Forall_cons in Hlen as [H0 Hrest].
  destruct (fold_or_spec rest o0.2 n H0 Hrest) as [Hn Hj].
  assert (Hchar : ∀ j : nat,
    DependencySet_iter (combine_deps o0 rest) !! j = Some true ↔
    ∃ o, o ∈ o0 :: rest ∧ DependencySet_iter o.2 !! j = Some true).
  { intros j. unfold combine_deps. rewrite Hj. split.
    - intros [H|(o & Ho & H)]; [exists o0; split; [by left | done]|].
      exists o. split; [by right | done].
    - intros (o & [->|Ho]%elem_of_cons & H); [by left | right; eauto]. }
  split_and!; [done | done |].
  intros o Ho. apply covers_loop_lookup.
  - apply DependencySet_iter_length. rewrite Forall_forall in Hlen'.
    unfold combine_deps in *. rewrite Hn. symmetry. by apply Hlen'.
  - intros j Hjo. apply Hchar. eauto.
Qed.

(** C1. For an operator node handled by the generic rule [expr] with the
    visited operands [o0 :: rest] as a run provides them (the state has
    the invariant, a variable among them is registered with its
    dependency set, the flag tuples have one length), the rule answers,
    and the dependency set [d] it answers is the union of the dependency
    sets of the operands: a flag of [d] is set exactly when it is set for
    some operand. If the dependency set of some operand differs from [d],
    every operand that is not a multi-index or a literal zero, float or
    integer is replaced by a named variable registered with the
    dependency set of that operand, and the node answered is the node
    over these references; its dependency set is still [d]. *)
Theorem expr_promotes_differing_operands (i : nat) (cls : operator_class)
    (operands : list Expr) (o0 : Expr * DependencySet)
    (rest : list (Expr * DependencySet)) (s : State) (n : nat) :
  cs_inv s →
  Forall (res_ok s) (o0 :: rest) →
  Forall (λ o, length (basisfunctions o.2) = n) (o0 :: rest) →
  ∃ ops' e' d s',
    expr (Operator i cls operands) (o0 :: rest) s = Ok ((e', d), s') ∧
    d = fold_left (λ d o, DependencySet_or d o.2) rest o0.2 ∧
    (∀ j : nat, DependencySet_iter d !! j = Some true ↔
                ∃ o, o ∈ o0 :: rest ∧ DependencySet_iter o.2 !! j = Some true) ∧
    ((∃ o, o ∈ o0 :: rest ∧ o.2 ≠ d) →
     Forall2 (promoted (codestructure s')) (o0 :: rest) ops' ∧
     node_over (Operator i cls operands) (map fst ops') e').
Proof.
  intros Hinv Hok Hlen.
  destruct (expr_spec i cls operands o0 rest s Hinv Hok)
    as (ops' & e' & s' & Hrun & _ & _ & Hcase & Hnode).
  destruct (combine_deps_covers o0 rest n Hlen) as (Hn & Hchar & Hcov).
  exists ops', e', (combine_deps o0 rest), s'.
  split_and!; [done | done | done |].
  intros (o & Ho & Hne).
  assert (Hex : existsb (λ o, DependencySet_ne o.2 (combine_deps o0 rest)) (o0 :: rest)
                = true).
  { apply existsb_exists. exists o. split; [by apply list_elem_of_In|].
    apply DependencySet_ne_union; [|by apply Hcov|done].
    rewrite Forall_forall in Hlen. rewrite Hn. by apply Hlen. }
  rewrite Hex in Hcase. done.
Qed.

(** C4. For an operator node [x] handled by the generic rule in a state
    of a run: when every operand reference the rule ends with is
    identical to the operand of [x] at its place, the rule answers [x]
    itself. When no operand has a dependency set other than the union
    [d], the operands are not rewritten and the code structure is
    unchanged, so no variable is introduced; when moreover the visited
    operands are those of [x], the state is unchanged too. The
    spatial-derivative rule answers [x] itself when the visited operand
    is identical to the first operand of [x]. *)
Theorem splitter_reuses_unchanged_nodes (i : nat) (cls : operator_class)
    (operands : list Expr) (o0 : Expr * DependencySet)
    (rest : list (Expr * DependencySet)) (f ii : Expr * DependencySet)
    (s : State) :
  cs_inv s →
  Forall (res_ok s) (o0 :: rest) →
  (∃ ops' e' s',
     expr (Operator i cls operands) (o0 :: rest) s
     = Ok ((e', combine_deps o0 rest), s') ∧
     (if existsb (λ o, DependencySet_ne o.2 (combine_deps o0 rest)) (o0 :: rest)
      then Forall2 (promoted (codestructure s')) (o0 :: rest) ops'
      else ops' = o0 :: rest) ∧
     (all_is (map fst ops') (Operator i cls operands) = true →
      e' = Operator i cls operands) ∧
     ((∀ o, o ∈ o0 :: rest → o.2 = combine_deps o0 rest) →
      ops' = o0 :: rest ∧ codestructure s' = codestructure s ∧
      (all_is (map fst (o0 :: rest)) (Operator i cls operands) = true → s' = s))) ∧
  (∀ o rest', operands = o :: rest' → is_ f.1 o = true →
     spatial_derivative basisfunction_deps (Operator i cls operands) f ii s
     = Ok ((Operator i cls operands,
            DependencySet_or f.2 (runtime_deps basisfunction_deps)), s)).
Proof.
  intros Hinv Hok. split.
  - destruct (expr_spec i cls operands o0 rest s Hinv Hok)
      as (ops' & e' & s' & Hrun & _ & _ & Hcase & Hnode).
    exists ops', e', s'. split_and!; [done | | |].
    + destruct (existsb _ _); [done | by destruct Hcase].
    + intros Hall. destruct Hnode as [[-> _]|[Hf _]]; [done | congruence].
    + intros Hsame.
      assert (Hex : existsb (λ o, DependencySet_ne o.2 (combine_deps o0 rest))
                      (o0 :: rest) = false).
      { apply not_true_is_false. intros (o & Ho & Hne)%existsb_exists.
        apply list_elem_of_In in Ho. rewrite (Hsame o Ho) in Hne at 1.
        rewrite DependencySet_ne_covers, DependencySet_covers_refl in Hne. done. }
      rewrite Hex in Hcase. destruct Hcase as [-> Hcs]. split_and!; [done | done |].
      intros Hall. unfold expr in Hrun. rewrite Hex in Hrun.
      unfold bind, ret in Hrun. rewrite Hall in Hrun. by injection Hrun as _ ->.
  - intros o rest' -> Hi. unfold spatial_derivative. simpl. by rewrite Hi.
Qed.

Variable extract_variables : Expr → list Expr.

#[local] Abbreviation Split :=
  (split_by_dependencies formdata basisfunction_deps function_deps extract_variables).

(** A run that succeeds ends in a state of the invariant, and answers the
    info stored under the label of the root variable: the last variable
    extracted when the input is a variable, the wrapper made for it
    otherwise. *)
Lemma split_by_dependencies_inv (expression : Expr) (n0 g0 : nat)
    (vinfo : VariableInfo) (cs : CodeStructure) (s' : State) :
  Split expression n0 g0 = Ok ((vinfo, cs), s') →
  cs = codestructure s' ∧ cs_inv s' ∧
  ∃ root i e c,
    root = Variable_ i e c ∧ variableinfo cs !! c = Some vinfo ∧
    (if isinstance_Variable expression
     then last (extract_variables expression) = Some root ∧
          is_ expression root = true
     else root = Variable_ n0 expression g0).
Proof.
  unfold split_by_dependencies. intros Hrun.
  apply bind_Ok in Hrun as (variables & s1 & Hpre & Hrun).
  apply bind_Ok in Hrun as (r & s2 & Hall & Hret).
  destruct r as [vi|]; [|done]. injection Hret as -> <- ->.
  assert (Hpre' : cs_inv s1 ∧
    ∃ root, last variables = Some root ∧
      (if isinstance_Variable expression
       then last (extract_variables expression) = Some root ∧
            is_ expression root = true
       else root = Variable_ n0 expression g0)).
  { destruct (isinstance_Variable expression).
    - destruct (last (extract_variables expression)) as [l|] eqn:Hl; [|done].
      apply bind_Ok in Hpre as ([] & s0 & Hassert & Hret).
      injection Hret as <- <-. unfold ufl_assert in Hassert.
      destruct (is_ expression l) eqn:His; [|done]. injection Hassert as <-.
      split; [apply cs_inv_initial | eauto].
    - unfold bind, new_Variable, bind, new_Label, new_id, ret in Hpre. simpl in Hpre.
      injection Hpre as <- <-. split.
      + apply cs_inv_initial.
      + eexists. split; [apply last_snoc | done]. }
  destruct Hpre' as (Hinv1 & root & Hlast & Hroot).
  destruct (handle_all_inv variables None s1 (Some vinfo) s' Hinv1 Hall)
    as (Hinv' & _ & Hres).
  rewrite Hlast in Hres. destruct Hres as (vi' & i & e & c & Heq & -> & Hc).
  injection Heq as <-. split_and!; [done | done |].
  exists (Variable_ i e c), i, e, c. by split_and!.
Qed.

Lemma stacks_get_elem (st : list (DependencySet * list VariableInfo))
    (k : DependencySet) (stack : list VariableInfo) :
  NoDup st.*1 → (k, stack) ∈ st → stacks_get st k = Some (k, stack).
Proof.
  induction st as [|[k0 stack0] st IH]; csimpl; [by intros _ ?%elem_of_nil|].
  intros [Hk0 Hnd]%NoDup_cons [Heq|Hin]%elem_of_cons.
  - injection Heq as -> ->. by rewrite (proj2 (key_match_iff k0 k0) eq_refl).
  - destruct (key_match k0 k) eqn:Hk; [|by apply IH].
    apply key_match_iff in Hk as ->. destruct Hk0.
    apply list_elem_of_fmap. by exists (k, stack).
Qed.



(** C10. When [split_by_dependencies] succeeds (the last variable
    extracted being the input object when the input is a variable), the
    info it answers is recorded in the code structure it answers: the
    label of the root variable (the input when it is a variable, its new
    wrapper otherwise) maps to that info in [variableinfo], the info
    holds a variable of that label, and the info is in the stack found
    under its dependency set. So at least one variable is registered. *)
Theorem split_by_dependencies_root_recorded (expression : Expr) (n0 g0 : nat)
    (vinfo : VariableInfo) (cs : CodeStructure) (s' : State) :
  (∀ l, last (extract_variables expression) = Some l →
        is_ expression l = true → l = expression) →
  Split expression n0 g0 = Ok ((vinfo, cs), s') →
  variableinfo cs !! match expression with Variable_ _ _ c => c | _ => g0 end
  = Some vinfo ∧
  (∃ i e, variable vinfo
          = Variable_ i e match expression with Variable_ _ _ c => c | _ => g0 end) ∧
  (∃ stack, stacks_get (stacks cs) (deps vinfo) = Some (deps vinfo, stack) ∧
            vinfo ∈ stack) ∧
  (0 < size (variableinfo cs))%nat.
Proof.
  intros Hid Hrun.
  destruct (split_by_dependencies_inv _ _ _ _ _ _ Hrun)
    as (Hcs & Hinv & root & i & e & c & Hr & Hc & Hroot).
  subst cs root.
  assert (Hlab : match expression with Variable_ _ _ c => c | _ => g0 end = c).
  { destruct expression as [i0 cls0|i0 e0 c0|i0 cls0 ops0]; simpl in Hroot.
    - by injection Hroot as _ _ ->.
    - destruct Hroot as [Hlast His]. by injection (Hid _ Hlast His) as _ _ ->.
    - by injection Hroot as _ _ ->. }
  rewrite Hlab. split_and!.
  - done.
  - by apply (inv_label _ Hinv).
  - destruct (inv_in_stack _ Hinv c vinfo Hc) as (stack & H1 & H2).
    exists stack. split; [|done]. apply stacks_get_elem; [|done].
    apply (inv_keys_nodup _ Hinv).
  - destruct (decide (size (variableinfo (codestructure s')) = 0%nat)) as [H0|]; [|lia].
    apply map_size_empty_iff in H0. rewrite H0 in Hc. by apply lookup_empty_Some in Hc.
Qed.

End transformer_facts.

(** ** Flag tuples keep their length during a run *)

Lemma register_expression_length (e : Expr) (d : DependencySet)
    (count : option nat) (s : State) (vi : VariableInfo) (s' : State) (n : nat) :
  deps_wf n s → length (basisfunctions d) = n →
  register_expression e d count s = Ok (vi, s') →
  deps_wf n s' ∧ length (basisfunctions (deps vi)) = n.
Proof.
  intros Hwf Hd Hreg.
  destruct (register_expression_spec e d count s)
    as (vi1 & s1 & Heq & Hlook & _ & _ & Hcase).
  rewrite Hreg in Heq. injection Heq as <- <-.
  destruct (variableinfo (codestructure s) !! registration_label e count s)
    as [vi0|] eqn:Hc.
  - destruct Hcase as [-> Hcs]. unfold deps_wf. rewrite Hcs. eauto.
  - destruct Hcase as (Hdv & _ & _ & _ & Hcs). split; [|congruence].
    unfold deps_wf. rewrite Hcs. simpl. intros c x Hx.
    apply lookup_insert_Some in Hx as [[<- <-]|[_ Hx]]; [congruence | eauto].
Qed.

Lemma promote_ops_length (ops : list (Expr * DependencySet)) (n : nat) :
  ∀ s ops' s',
    deps_wf n s → Forall (λ o, length (basisfunctions o.2) = n) ops →
    promote_ops ops s = Ok (ops', s') →
    deps_wf n s' ∧ Forall (λ o, length (basisfunctions o.2) = n) ops'.
Proof.
  induction ops as [|o ops IH]; intros s ops' s' Hwf Hlen Hrun.
  - injection Hrun as <- <-. by split.
  - apply Forall_cons in Hlen as [Ho Hlen]. simpl in Hrun.
    apply bind_Ok in Hrun as (o' & s1 & Ho' & Hrun).
    apply bind_Ok in Hrun as (ops1 & s2 & Hops & Hret). injection Hret as <- <-.
    assert (H1 : deps_wf n s1 ∧ length (basisfunctions o'.2) = n).
    { destruct (isinstance_skiptypes o.1).
      - injection Ho' as <- <-. by split.
      - apply bind_Ok in Ho' as (vi & s0 & Hreg & Hret). injection Hret as <- <-.
        by eapply register_expression_length. }
    destruct H1 as [Hwf1 Hlen1].
    destruct (IH _ _ _ Hwf1 Hlen Hops) as [Hwf2 Hlen2].
    split; [done | by constructor].
Qed.

Section length_facts.

Variable formdata : FormData.
Variable basisfunction_deps : list DependencySet.
Variable function_deps : list DependencySet.

Hypothesis Htables : tables_wf basisfunction_deps function_deps.

#[local] Abbreviation Visit' := (visit formdata basisfunction_deps function_deps).

#[local] Abbreviation slots := (length basisfunction_deps).

Lemma make_empty_deps_length :
  length (basisfunctions (make_empty_deps basisfunction_deps)) = slots.
Proof. simpl. apply length_replicate. Qed.

Lemma expr_length (x : Expr) (ops : list (Expr * DependencySet))
    (s : State) (r : Expr * DependencySet) (s' : State) :
  deps_wf slots s → Forall (λ o, length (basisfunctions o.2) = slots) ops →
  expr x ops s = Ok (r, s') →
  deps_wf slots s' ∧ length (basisfunctions r.2) = slots.
Proof.
  intros Hwf Hlen Hrun. destruct ops as [|o0 rest]; [done|]. unfold expr in Hrun.
  apply bind_Ok in Hrun as (ops' & s1 & Hops & Hrun).
  assert (Hd : length (basisfunctions (combine_deps o0 rest)) = slots).
  { pose proof Hlen as Hlen'. apply Forall_cons in Hlen' as [H0 Hrest].
    by destruct (fold_or_spec rest o0.2 slots H0 Hrest). }
  assert (Hwf1 : deps_wf slots s1).
  { destruct (existsb _ _); [|by injection Hops as _ <-].
    by destruct (promote_ops_length _ _ _ _ _ Hwf Hlen Hops). }
  destruct (all_is _ _); [by injection Hrun as <- <-|].
  apply bind_Ok in Hrun as (e & s2 & Hcons & Hret). injection Hret as <- <-.
  split; [|done]. destruct x; try done.
  unfold construct, bind, new_id, ret in Hcons. by injection Hcons as _ <-.
Qed.

(** In a run over tables of the right length, every dependency set
    answered or registered has one basis function flag per slot. *)
Lemma visit_length (o : Expr) :
  ∀ s r s', deps_wf slots s → Visit' o s = Ok (r, s') →
            deps_wf slots s' ∧ length (basisfunctions r.2) = slots.
Proof using Htables.
  destruct Htables as [Hb Hf]. rewrite Forall_forall in Hb, Hf.
  induction o as [i cls|i e c IH|i cls ops IH] using Expr_ind_nested;
    intros s r s' Hwf Hrun.
  - destruct cls; simpl in Hrun;
      unfold terminal, facet_normal, basis_function, function, ret, raise in Hrun;
      repeat case_match; simplify_eq; simpl;
      (split; [done|]); try apply length_replicate.
    + apply Hb. by eapply list_elem_of_lookup_2.
    + apply Hf. by eapply list_elem_of_lookup_2.
  - change (Visit' (Variable_ i e c) s) with (variable_ (Variable_ i e c) s) in Hrun.
    rewrite variable_spec in Hrun.
    destruct (variableinfo (codestructure s) !! c) as [vi|] eqn:Hc; [|done].
    injection Hrun as <- <-. split; [done|]. simpl. eauto.
  - rewrite visit_Operator in Hrun.
    apply bind_Ok in Hrun as (rs & s1 & Hall & Hrun).
    assert (Hrs : deps_wf slots s1 ∧
                  Forall (λ o, length (basisfunctions o.2) = slots) rs).
    { clear Hrun. revert s rs s1 Hwf Hall.
      induction IH as [|o ops Ho _ IHops]; intros s rs s1 Hwf Hall.
      - injection Hall as <- <-. by split.
      - rewrite visit_all_cons in Hall.
        apply bind_Ok in Hall as (r0 & s0 & Hr0 & Hall).
        apply bind_Ok in Hall as (rs0 & s2 & Hrs0 & Hret).
        injection Hret as <- <-.
        destruct (Ho _ _ _ Hwf Hr0) as [Hwf0 Hlen0].
        destruct (IHops _ _ _ Hwf0 Hrs0) as [Hwf2 Hlen2].
        split; [done | by constructor]. }
    destruct Hrs as [Hwf1 Hlen1].
    destruct cls; try (by eapply expr_length).
    destruct rs as [|f [|ii [|? ?]]]; try done.
    apply Forall_cons in Hlen1 as [Hf1 _].
    unfold spatial_derivative in Hrun. simpl in Hrun.
    destruct ops as [|o0 ops']; [done|].
    assert (Hd : length (basisfunctions
                (DependencySet_or f.2 (runtime_deps basisfunction_deps))) = slots).
    { apply DependencySet_or_length; [done | apply length_replicate]. }
    destruct (is_ f.1 o0); [by injection Hrun as <- <-|].
    unfold bind, new_id, ret in Hrun. simpl in Hrun. by injection Hrun as <- <-.
Qed.

(** The operands handed to [expr] and [spatial_derivative] in a run: the
    state has the invariant, variables among them are registered, and
    their flag tuples have one length. *)
Lemma visited_operands (ops : list Expr) :
  ∀ s rs s',
    cs_inv s → deps_wf slots s →
    visit_all formdata basisfunction_deps function_deps ops s = Ok (rs, s') →
    cs_inv s' ∧ deps_wf slots s' ∧ Forall (res_ok s') rs ∧
    Forall (λ o, length (basisfunctions o.2) = slots) rs.
Proof using Htables.
  intros s rs s' Hinv Hwf Hall.
  destruct (visit_all_inv _ _ _ ops s rs s' Hinv Hall) as (Hinv' & _ & Hok).
  split; [done|]. cut (deps_wf slots s' ∧
                       Forall (λ o, length (basisfunctions o.2) = slots) rs).
  { intros [? ?]. by split_and!. }
  clear Hinv Hinv' Hok. revert s rs s' Hwf Hall.
  induction ops as [|o ops IH]; intros s rs s' Hwf Hall.
  - injection Hall as <- <-. by split.
  - rewrite visit_all_cons in Hall.
    apply bind_Ok in Hall as (r0 & s0 & Hr0 & Hall).
    apply bind_Ok in Hall as (rs0 & s2 & Hrs0 & Hret).
    injection Hret as <- <-.
    destruct (visit_length o _ _ _ Hwf Hr0) as [Hwf0 Hlen0].
    destruct (IH _ _ _ Hwf0 Hrs0) as [Hwf2 Hlen2].
    split; [done | by constructor].
Qed.

End length_facts.

(** ** The scenario [1.23 * v] *)

Lemma DependencySet_or_empty_l (bdeps : list DependencySet) (dv : DependencySet) :
  length (basisfunctions dv) = length bdeps →
  DependencySet_or (make_empty_deps bdeps) dv = dv.
Proof.
  intros H. destruct dv as [bf r c]. unfold DependencySet_or, make_empty_deps.
  simpl in *. f_equal. rewrite <- H. clear H. unfold or_tuples.
  induction bf as [|x bf IH]; simpl; [done|]. by rewrite IH.
Qed.

Lemma DependencySet_ne_empty (bdeps : list DependencySet) (dv : DependencySet) :
  length (basisfunctions dv) = length bdeps →
  basisfunctions dv !! 0%nat = Some true →
  DependencySet_ne (make_empty_deps bdeps) dv = true.
Proof.
  intros Hlen H0. rewrite DependencySet_ne_covers, negb_true_iff.
  apply not_true_is_false. intros Hc.
  unfold DependencySet_covers in Hc. rewrite covers_loop_lookup in Hc.
  2:{ unfold DependencySet_iter, make_empty_deps. simpl. rewrite length_replicate. lia. }
  specialize (Hc 2%nat H0). unfold DependencySet_iter, make_empty_deps in Hc.
  simpl in Hc. apply lookup_replicate in Hc as [? _]. done.
Qed.

(** C2, as the code has it. Splitting [1.23 * v], where the basis
    function [v] is renumbered to slot 0 and the dependency set [dv] of
    slot 0 has its first basis function flag set (and as many basis
    function flags as there are slots), succeeds with a result whose
    dependency set is [dv], and registers two variables: the product
    under the label of the root, and one variable that wraps [v],
    registered with [dv]; both are in the stack of [dv], and no variable
    is made for the literal. *)
Theorem split_literal_times_basis_function (formdata : FormData)
    (bdeps fdeps : list DependencySet) (dv : DependencySet)
    (i1 i2 i3 c n0 g0 : nat) (q : Q) :
  basisfunction_renumbering formdata (Terminal i2 (BasisFunction c)) = Some 0%nat →
  bdeps !! 0%nat = Some dv →
  length (basisfunctions dv) = length bdeps →
  basisfunctions dv !! 0%nat = Some true →
  ∃ vinfo vinfo_v cs s',
    split_by_dependencies formdata bdeps fdeps extract_variables_post
      (Operator i3 Product [Terminal i1 (FloatValue q); Terminal i2 (BasisFunction c)])
      n0 g0 = Ok ((vinfo, cs), s') ∧
    deps vinfo = dv ∧
    variableinfo cs = <[g0 := vinfo]> {[ S g0 := vinfo_v ]} ∧
    variable vinfo_v = Variable_ (S n0) (Terminal i2 (BasisFunction c)) (S g0) ∧
    deps vinfo_v = dv ∧
    stacks cs = [(dv, [vinfo_v; vinfo])] ∧
    size (variableinfo cs) = 2%nat.
Proof.
  intros H1 H2 H3 H4.
  assert (Hk : key_match dv dv = true) by by apply key_match_iff.
  assert (Hsize : ∀ a b : VariableInfo,
            size (<[g0 := a]> ({[ S g0 := b ]} : gmap nat VariableInfo)) = 2%nat).
  { intros a b. rewrite map_size_insert_None, map_size_singleton; [done|].
    apply lookup_singleton_ne. lia. }
  unfold split_by_dependencies. simpl.
  cbv beta iota zeta delta
    [handle_all handle visit visit_all bind ret new_Variable new_Label new_id
     variableinfo_get terminal basis_function raise codestructure next_id
     Label_globalcount variableinfo stacks].
  rewrite lookup_empty, H1, H2.
  cbv beta iota zeta delta [expr combine_deps fold_left snd fst existsb].
  rewrite (DependencySet_or_empty_l bdeps dv H3), (DependencySet_ne_empty bdeps dv H3 H4).
  cbv beta iota zeta delta
    [orb promote_ops isinstance_skiptypes fst snd bind ret register_expression
     isinstance_Variable new_Variable new_Label new_id variableinfo_get
     new_VariableInfo codestructure_add raise codestructure next_id
     Label_globalcount variableinfo stacks stacks_append].
  rewrite lookup_empty.
  cbv beta iota zeta delta
    [map fst snd variable deps all_is operands_of zip zip_with forallb is_ id_of
     andb construct bind ret new_id codestructure next_id Label_globalcount
     variableinfo stacks].
  rewrite insert_empty.
  destruct (bool_decide (i1 = i1)); destruct (bool_decide (S n0 = i2));
    rewrite lookup_singleton_ne by lia; rewrite Hk;
    eexists _, _, _, _; (split; [reflexivity|]); simpl; split_and!; done.
Qed.

Lemma split_literal_times_basis_function_witness :
  ∃ vinfo vinfo_v cs s',
    split_by_dependencies formdata_by_count [deps_v; deps_u] []
      extract_variables_post
      (Operator 2 Product [Terminal 0 (FloatValue (123 # 100));
                           Terminal 1 (BasisFunction 0)])
      3 0 = Ok ((vinfo, cs), s') ∧
    deps vinfo = deps_v ∧
    variableinfo cs = <[0%nat := vinfo]> {[ 1%nat := vinfo_v ]} ∧
    variable vinfo_v = Variable_ 4 (Terminal 1 (BasisFunction 0)) 1 ∧
    deps vinfo_v = deps_v ∧
    stacks cs = [(deps_v, [vinfo_v; vinfo])] ∧
    size (variableinfo cs) = 2%nat.
Proof.
  apply (split_literal_times_basis_function formdata_by_count [deps_v; deps_u] []
           deps_v 0 1 2 0 3 0 (123 # 100)); reflexivity.
Defined.

(** C2, as the specification has it, fails: on [1.23 * v] with the
    dependency sets [((True, False), False, False)] for [v] and
    [((False, True), False, False)] for the other slot, it is not so that
    the run leaves one registered variable only. *)
Lemma scenario_1_23_times_v_registers_two_variables :
  ¬ (∀ vinfo cs s',
       split_by_dependencies formdata_by_count [deps_v; deps_u] []
         extract_variables_post product_1_23_v 3 0 = Ok ((vinfo, cs), s') →
       deps vinfo = deps_v ∧ size (variableinfo cs) = 1%nat).
Proof.
  intros H.
  destruct (split_by_dependencies formdata_by_count [deps_v; deps_u] []
              extract_variables_post product_1_23_v 3 0)
    as [[[vinfo cs] s']|e] eqn:Hrun; [|by vm_compute in Hrun].
  destruct (H vinfo cs s' eq_refl) as [_ Hsize].
  vm_compute in Hrun. injection Hrun as _ <- _.
  vm_compute in Hsize. discriminate.
Qed.

(** ** The properties at work on the examples *)

Lemma expr_promotes_differing_operands_witness :
  ∃ ops' e' s',
    expr product_1_23_v
      [(literal_1_23, make_empty_deps [deps_v; deps_u]); (v_slot0, deps_v)]
      initial_state
    = Ok ((e', deps_v), s') ∧
    Forall2 (promoted (codestructure s'))
      [(literal_1_23, make_empty_deps [deps_v; deps_u]); (v_slot0, deps_v)] ops' ∧
    node_over product_1_23_v (map fst ops') e'.
Proof.
  destruct (expr_promotes_differing_operands 2 Product [literal_1_23; v_slot0]
              (literal_1_23, make_empty_deps [deps_v; deps_u]) [(v_slot0, deps_v)]
              initial_state 2)
    as (ops' & e' & d & s' & Hrun & Hd & _ & Hprom).
  - apply cs_inv_initial.
  - repeat constructor; by apply res_ok_not_Variable.
  - repeat constructor.
  - vm_compute in Hd. subst d. exists ops', e', s'. split; [exact Hrun|].
    apply Hprom. exists (literal_1_23, make_empty_deps [deps_v; deps_u]).
    split; [by left | by vm_compute].
Defined.

Lemma splitter_reuses_unchanged_nodes_witness :
  expr sum_v_v [(v_slot0, deps_v); (v_slot0, deps_v)] initial_state
  = Ok ((sum_v_v, deps_v), initial_state) ∧
  spatial_derivative [deps_v; deps_u] dx_v (v_slot0, deps_v)
    (multi_index, make_empty_deps [deps_v; deps_u]) initial_state
  = Ok ((dx_v, DependencySet_or deps_v (runtime_deps [deps_v; deps_u])),
        initial_state).
Proof.
  split.
  - destruct (splitter_reuses_unchanged_nodes [deps_v; deps_u] 5 Sum
                [v_slot0; v_slot0] (v_slot0, deps_v) [(v_slot0, deps_v)]
                (v_slot0, deps_v) (multi_index, make_empty_deps [deps_v; deps_u])
                initial_state)
      as [(ops' & e' & s' & Hrun & _ & Hreuse & Hsame) _].
    + apply cs_inv_initial.
    + repeat constructor; by apply res_ok_not_Variable.
    + destruct Hsame as (-> & _ & Hs).
      { intros o Ho. repeat (apply elem_of_cons in Ho as [->|Ho]); try done.
        by apply elem_of_nil in Ho. }
      rewrite (Hs eq_refl), (Hreuse eq_refl) in Hrun. exact Hrun.
  - destruct (splitter_reuses_unchanged_nodes [deps_v; deps_u] 6 SpatialDerivative
                [v_slot0; multi_index] (v_slot0, deps_v) [(v_slot0, deps_v)]
                (v_slot0, deps_v) (multi_index, make_empty_deps [deps_v; deps_u])
                initial_state)
      as [_ Hsd].
    + apply cs_inv_initial.
    + repeat constructor; by apply res_ok_not_Variable.
    + exact (Hsd v_slot0 [multi_index] eq_refl eq_refl).
Defined.

Lemma variable_registered_or_fails_witness :
  visit formdata_by_count [deps_v; deps_u] [] (Variable_ 9 (Terminal 0 Zero) 5)
    one_variable_state
  = Ok ((variable zero_info, deps zero_info), one_variable_state) ∧
  ∃ message,
    visit formdata_by_count [deps_v; deps_u] [] (Variable_ 9 (Terminal 0 Zero) 7)
      one_variable_state
    = Raise (UFLException message).
Proof.
  split.
  - apply (variable_registered_or_fails formdata_by_count [deps_v; deps_u] []
             9 (Terminal 0 Zero) 5 one_variable_state).
    vm_compute. reflexivity.
  - destruct (variable_registered_or_fails formdata_by_count [deps_v; deps_u] []
                9 (Terminal 0 Zero) 7 one_variable_state) as [_ Hfail].
    destruct Hfail as (message & _ & Hvisit); [by vm_compute|].
    exists message. exact Hvisit.
Defined.


Lemma split_by_dependencies_root_recorded_witness :
  ∃ vinfo cs s',
    split_by_dependencies formdata_by_count [deps_v; deps_u] []
      extract_variables_post named_product 8 1 = Ok ((vinfo, cs), s') ∧
    variableinfo cs !! 0%nat = Some vinfo ∧
    (0 < size (variableinfo cs))%nat.
Proof.
  destruct (split_by_dependencies formdata_by_count [deps_v; deps_u] []
              extract_variables_post named_product 8 1)
    as [[[vinfo cs] s']|e] eqn:Hrun; [|by vm_compute in Hrun].
  exists vinfo, cs, s'. split; [reflexivity|].
  destruct (split_by_dependencies_root_recorded formdata_by_count [deps_v; deps_u] []
              extract_variables_post named_product 8 1 vinfo cs s')
    as (H1 & _ & _ & H4).
  - intros l Hl _. by injection Hl.
  - exact Hrun.
  - by split.
Defined.

(** * Further properties of the code *)

(** ** The order and the lattice of dependency sets *)

Lemma DependencySet_and_lookup (a b : DependencySet) (j : nat) :
  DependencySet_iter (DependencySet_and a b) !! j = Some true ↔
  DependencySet_iter a !! j = Some true ∧ DependencySet_iter b !! j = Some true.
Proof.
  change (DependencySet_iter (DependencySet_and a b))
    with (zip_with andb (DependencySet_iter a) (DependencySet_iter b)).
  rewrite lookup_zip_with_Some. split.
  - intros (x & y & Hxy & Hx & Hy). symmetry in Hxy.
    apply andb_true_iff in Hxy as [-> ->]. done.
  - intros [Ha Hb]. by exists true, true.
Qed.

Lemma bool_list_ext (la lb : list bool) :
  length la = length lb →
  (∀ j : nat, la !! j = Some true ↔ lb !! j = Some true) → la = lb.
Proof.
  revert lb. induction la as [|x la IH]; intros [|y lb] Hlen Hj; simpl in *; try lia.
  - done.
  - f_equal.
    + specialize (Hj 0%nat). simpl in Hj. destruct x, y; try done.
      * pose proof (proj1 Hj eq_refl). done.
      * pose proof (proj2 Hj eq_refl). done.
    + apply IH; [lia|]. intros j. apply (Hj (S j)).
Qed.

Lemma DependencySet_ext (a b : DependencySet) :
  length (basisfunctions a) = length (basisfunctions b) →
  (∀ j : nat, DependencySet_iter a !! j = Some true ↔
              DependencySet_iter b !! j = Some true) →
  a = b.
Proof.
  intros Hlen Hj. apply DependencySet_iter_inj, bool_list_ext; [|done].
  by apply DependencySet_iter_length.
Qed.

Lemma DependencySet_and_length (a b : DependencySet) (n : nat) :
  length (basisfunctions a) = n → length (basisfunctions b) = n →
  length (basisfunctions (DependencySet_and a b)) = n.
Proof.
  intros Ha Hb. simpl. unfold and_tuples. rewrite length_zip_with. lia.
Qed.

Lemma DependencySet_covers_lookup (a b : DependencySet) :
  length (basisfunctions a) = length (basisfunctions b) →
  DependencySet_covers a b = true ↔
  ∀ j : nat, DependencySet_iter b !! j = Some true →
             DependencySet_iter a !! j = Some true.
Proof. intros Hlen. apply covers_loop_lookup. by apply DependencySet_iter_length. Qed.

(** X1. On dependency sets with flag tuples of one length, [covers] is a
    partial order: every set covers itself, two sets that cover each
    other have the same flags, and [covers] is transitive. *)
Theorem DependencySet_covers_partial_order (a b c : DependencySet) :
  length (basisfunctions a) = length (basisfunctions b) →
  length (basisfunctions b) = length (basisfunctions c) →
  DependencySet_covers a a = true ∧
  (DependencySet_covers a b = true → DependencySet_covers b a = true → a = b) ∧
  (DependencySet_covers a b = true → DependencySet_covers b c = true →
   DependencySet_covers a c = true).
Proof.
  intros Hab Hbc. split_and!.
  - apply DependencySet_covers_refl.
  - by apply DependencySet_covers_antisym.
  - rewrite !DependencySet_covers_lookup by congruence. auto.
Qed.

Lemma DependencySet_covers_partial_order_witness :
  DependencySet_covers (mkDependencySet [true; true] true false)
                       (mkDependencySet [false; false] false false) = true.
Proof.
  apply (DependencySet_covers_partial_order
           (mkDependencySet [true; true] true false)
           (mkDependencySet [true; false] true false)
           (mkDependencySet [false; false] false false) eq_refl eq_refl);
    reflexivity.
Defined.

(** X2. On dependency sets with flag tuples of one length, [covers] is
    the order of the lattice: [a.covers(b)] holds exactly when [a | b]
    is [a], and exactly when [a & b] is [b]; the union is the least set
    that covers both operands and the intersection the greatest set that
    both operands cover. *)
Theorem DependencySet_covers_lattice_order (a b c : DependencySet) :
  length (basisfunctions a) = length (basisfunctions b) →
  length (basisfunctions b) = length (basisfunctions c) →
  (DependencySet_covers a b = true ↔ DependencySet_or a b = a) ∧
  (DependencySet_covers a b = true ↔ DependencySet_and a b = b) ∧
  (DependencySet_covers c a = true → DependencySet_covers c b = true →
   DependencySet_covers c (DependencySet_or a b) = true) ∧
  (DependencySet_covers a c = true → DependencySet_covers b c = true →
   DependencySet_covers (DependencySet_and a b) c = true) ∧
  DependencySet_covers a (DependencySet_and a b) = true ∧
  DependencySet_covers b (DependencySet_and a b) = true.
Proof.
  intros Hab Hbc.
  assert (Hor : length (basisfunctions (DependencySet_or a b))
                = length (basisfunctions a)).
  { by apply DependencySet_or_length. }
  assert (Hand : length (basisfunctions (DependencySet_and a b))
                 = length (basisfunctions a)).
  { by apply DependencySet_and_length. }
  split_and!.
  - rewrite DependencySet_covers_lookup by done. split.
    + intros H. apply DependencySet_ext; [done|]. intros j.
      rewrite DependencySet_or_lookup by done. specialize (H j). tauto.
    + intros Heq j Hj. rewrite <- Heq, DependencySet_or_lookup by done. by right.
  - rewrite DependencySet_covers_lookup by done. split.
    + intros H. apply DependencySet_ext; [congruence|]. intros j.
      rewrite DependencySet_and_lookup. specialize (H j). tauto.
    + intros Heq j Hj. rewrite <- Heq in Hj.
      by apply DependencySet_and_lookup in Hj as [? _].
  - rewrite !DependencySet_covers_lookup by congruence. intros Ha Hb j.
    rewrite DependencySet_or_lookup by done. specialize (Ha j). specialize (Hb j).
    tauto.
  - rewrite !DependencySet_covers_lookup by congruence. intros Ha Hb j Hj.
    apply DependencySet_and_lookup. auto.
  - rewrite DependencySet_covers_lookup by congruence. intros j.
    rewrite DependencySet_and_lookup. tauto.
  - rewrite DependencySet_covers_lookup by congruence. intros j.
    rewrite DependencySet_and_lookup. tauto.
Qed.

Lemma DependencySet_covers_lattice_order_witness :
  DependencySet_or (mkDependencySet [true; true] true false)
                   (mkDependencySet [true; false] true false)
  = mkDependencySet [true; true] true false.
Proof.
  apply (DependencySet_covers_lattice_order
           (mkDependencySet [true; true] true false)
           (mkDependencySet [true; false] true false)
           (mkDependencySet [false; false] false false) eq_refl eq_refl).
  reflexivity.
Defined.

(** X3. On dependency sets with flag tuples of one length, union and
    intersection absorb each other, and a set whose flags are all false
    is neutral for the union and absorbing for the intersection. *)
Theorem DependencySet_absorption (a b : DependencySet) :
  length (basisfunctions a) = length (basisfunctions b) →
  DependencySet_or a (DependencySet_and a b) = a ∧
  DependencySet_and a (DependencySet_or a b) = a ∧
  (Forall (λ x, x = false) (DependencySet_iter b) →
   DependencySet_or a b = a ∧ DependencySet_and a b = b).
Proof.
  intros Hab.
  assert (Hor : length (basisfunctions (DependencySet_or a b))
                = length (basisfunctions a)).
  { by apply DependencySet_or_length. }
  assert (Hand : length (basisfunctions (DependencySet_and a b))
                 = length (basisfunctions a)).
  { by apply DependencySet_and_length. }
  split_and!.
  - apply DependencySet_ext; [by apply DependencySet_or_length|]. intros j.
    rewrite DependencySet_or_lookup, DependencySet_and_lookup by done. tauto.
  - apply DependencySet_ext; [by apply DependencySet_and_length|]. intros j.
    rewrite DependencySet_and_lookup, DependencySet_or_lookup by done. tauto.
  - intros Hb.
    assert (Hnone : ∀ j : nat, DependencySet_iter b !! j ≠ Some true).
    { intros j Hj. rewrite Forall_lookup in Hb. by specialize (Hb j true Hj). }
    split.
    + apply DependencySet_ext; [done|]. intros j.
      rewrite DependencySet_or_lookup by done. specialize (Hnone j). tauto.
    + apply DependencySet_ext; [congruence|]. intros j.
      rewrite DependencySet_and_lookup. specialize (Hnone j). tauto.
Qed.

Lemma DependencySet_absorption_witness :
  DependencySet_or (mkDependencySet [true; false] true false)
    (DependencySet_and (mkDependencySet [true; false] true false)
                       (mkDependencySet [false; true] true false))
  = mkDependencySet [true; false] true false.
Proof.
  apply (DependencySet_absorption (mkDependencySet [true; false] true false)
           (mkDependencySet [false; true] true false) eq_refl).
Defined.

Lemma zip_with_orb_diag (l : list bool) : zip_with orb l l = l.
Proof. induction l as [|[] l IH]; simpl; by rewrite ?IH. Qed.

Lemma zip_with_andb_diag (l : list bool) : zip_with andb l l = l.
Proof. induction l as [|[] l IH]; simpl; by rewrite ?IH. Qed.

Lemma zip_with_andb_orb_distr (la lb lc : list bool) :
  zip_with andb la (zip_with orb lb lc)
  = zip_with orb (zip_with andb la lb) (zip_with andb la lc).
Proof.
  revert lb lc. induction la as [|x la IH]; intros [|y lb] [|z lc]; simpl; auto.
  by rewrite IH, andb_orb_distrib_r.
Qed.

Lemma zip_with_orb_andb_distr (la lb lc : list bool) :
  zip_with orb la (zip_with andb lb lc)
  = zip_with andb (zip_with orb la lb) (zip_with orb la lc).
Proof.
  revert lb lc. induction la as [|x la IH]; intros [|y lb] [|z lc]; simpl; auto.
  by rewrite IH, orb_andb_distrib_r.
Qed.

(** X4. Whatever the lengths of the flag tuples, union and intersection
    are idempotent and distribute over each other. *)
Theorem DependencySet_distributive (a b c : DependencySet) :
  DependencySet_or a a = a ∧
  DependencySet_and a a = a ∧
  DependencySet_and a (DependencySet_or b c)
  = DependencySet_or (DependencySet_and a b) (DependencySet_and a c) ∧
  DependencySet_or a (DependencySet_and b c)
  = DependencySet_and (DependencySet_or a b) (DependencySet_or a c).
Proof.
  destruct a as [la ra ca], b as [lb rb cb], c as [lc rc cc].
  unfold DependencySet_or, DependencySet_and, or_tuples, and_tuples. simpl.
  split_and!.
  - by rewrite zip_with_orb_diag, !orb_diag.
  - by rewrite zip_with_andb_diag, !andb_diag.
  - by rewrite zip_with_andb_orb_distr, !andb_orb_distrib_r.
  - by rewrite zip_with_orb_andb_distr, !orb_andb_distrib_r.
Qed.

Lemma cmp_loop_range (l : list (bool * bool)) :
  cmp_loop l = (-1)%Z ∨ cmp_loop l = 0%Z.
Proof. induction l as [|[[] []] l IH]; simpl; auto. Qed.

(** X5. [__cmp__] answers [-1] or [0], never [+1], and it answers [0]
    exactly when [self] covers [other]. For flag tuples of one length,
    [a == b] and [b == a] hold together exactly when [a] and [b] have
    the same flags. *)
Theorem DependencySet_cmp_never_positive (a b : DependencySet) :
  length (basisfunctions a) = length (basisfunctions b) →
  (DependencySet_cmp a b = (-1)%Z ∨ DependencySet_cmp a b = 0%Z) ∧
  (DependencySet_cmp a b = 0%Z ↔ DependencySet_covers a b = true) ∧
  (DependencySet_eq a b = true ∧ DependencySet_eq b a = true ↔ a = b).
Proof.
  intros Hlen. split_and!.
  - apply cmp_loop_range.
  - rewrite <- DependencySet_eq_covers. unfold DependencySet_eq. apply symmetry, Z.eqb_eq.
  - rewrite !DependencySet_eq_covers. split.
    + intros [H1 H2]. by apply DependencySet_covers_antisym.
    + intros ->. by rewrite DependencySet_covers_refl.
Qed.

Lemma DependencySet_cmp_never_positive_witness :
  DependencySet_cmp (mkDependencySet [true; false] true false)
                    (mkDependencySet [false; true] true false) = (-1)%Z ∨
  DependencySet_cmp (mkDependencySet [true; false] true false)
                    (mkDependencySet [false; true] true false) = 0%Z.
Proof.
  apply (DependencySet_cmp_never_positive (mkDependencySet [true; false] true false)
           (mkDependencySet [false; true] true false) eq_refl).
Defined.

(** ** Registration, read back *)

Lemma stacks_get_append_eq (st : list (DependencySet * list VariableInfo))
    (d : DependencySet) (vi : VariableInfo) :
  stacks_get (stacks_append st d vi) d =
  Some (match stacks_get st d with
        | Some (k, stack) => (k, stack ++ [vi])
        | None => (d, [vi])
        end).
Proof.
  induction st as [|[k0 stack0] st IH]; simpl.
  - by rewrite (proj2 (key_match_iff d d) eq_refl).
  - destruct (key_match k0 d) eqn:Hk; simpl; by rewrite Hk.
Qed.

Lemma stacks_get_append_ne (st : list (DependencySet * list VariableInfo))
    (d k : DependencySet) (vi : VariableInfo) :
  k ≠ d → stacks_get (stacks_append st d vi) k = stacks_get st k.
Proof.
  intros Hne.
  assert (Hd : key_match d k = false).
  { apply not_true_is_false. intros H%key_match_iff. congruence. }
  induction st as [|[k0 stack0] st IH]; simpl.
  - by rewrite Hd.
  - destruct (key_match k0 d) eqn:Hk; simpl.
    + apply key_match_iff in Hk as ->. by rewrite Hd.
    + by rewrite IH.
Qed.

(** X6. When the label under which [register_expression] registers is
    not yet in [variableinfo], the call answers a new info that holds the
    given dependency set and a variable of that label (the expression
    itself when it is a variable and no count is given, a new wrapper of
    the expression otherwise). Afterwards [variableinfo] is the old map
    with the label bound to the info, the stack found under the
    dependency set is the old stack (empty when there was none) with the
    info appended at its end, and the stack found under any other
    dependency set is as before. *)
Theorem register_expression_first_registration (e : Expr) (d : DependencySet)
    (count : option nat) (s : State) :
  variableinfo (codestructure s) !! registration_label e count s = None →
  ∃ vi s',
    register_expression e d count s = Ok (vi, s') ∧
    deps vi = d ∧
    (next_id s ≤ vi_id vi < next_id s')%nat ∧
    variable vi =
      (if isinstance_Variable e && bool_decide (count = None) then e
       else Variable_ (next_id s) e (registration_label e count s)) ∧
    (∃ i e0, variable vi = Variable_ i e0 (registration_label e count s)) ∧
    variableinfo (codestructure s')
    = <[registration_label e count s := vi]> (variableinfo (codestructure s)) ∧
    stacks_get (stacks (codestructure s')) d =
      Some (match stacks_get (stacks (codestructure s)) d with
            | Some (k, stack) => (k, stack ++ [vi])
            | None => (d, [vi])
            end) ∧
    ∀ k, k ≠ d →
         stacks_get (stacks (codestructure s')) k
         = stacks_get (stacks (codestructure s)) k.
Proof.
  intros Hc.
  destruct (register_expression_spec e d count s)
    as (vi & s' & Hreg & Hlook & _ & _ & Hcase).
  rewrite Hc in Hcase. destruct Hcase as (Hd & Hid & Hv & _ & Hcs).
  exists vi, s'. rewrite Hcs. simpl.
  split; [exact Hreg|]. split; [exact Hd|]. split; [exact Hid|].
  split; [exact Hv|]. split_and!.
  - rewrite Hv. destruct count as [c|]; simpl.
    + rewrite andb_false_r. eauto.
    + destruct e; simpl; eauto.
  - done.
  - apply stacks_get_append_eq.
  - intros k Hk. by apply stacks_get_append_ne.
Qed.

Lemma register_expression_first_registration_witness :
  ∃ vi s',
    register_expression v_slot0 deps_v None initial_state = Ok (vi, s') ∧
    deps vi = deps_v ∧
    stacks_get (stacks (codestructure s')) deps_v = Some (deps_v, [vi]).
Proof.
  destruct (register_expression_first_registration v_slot0 deps_v None initial_state)
    as (vi & s' & Hreg & Hd & _ & _ & _ & _ & Hst & _).
  - vm_compute. reflexivity.
  - exists vi, s'. split_and!; [exact Hreg | exact Hd | exact Hst].
Defined.

(** X7. The first registration under a label wins: once
    [register_expression] has answered an info, every later call that
    registers under the same label answers that same info, whatever
    expression and dependency set it is given, and changes neither
    [variableinfo] nor the stacks. *)
Theorem register_expression_first_wins (e e' : Expr) (d d' : DependencySet)
    (count count' : option nat) (s s1 : State) (vi : VariableInfo) :
  register_expression e d count s = Ok (vi, s1) →
  registration_label e' count' s1 = registration_label e count s →
  ∃ s2, register_expression e' d' count' s1 = Ok (vi, s2) ∧
        variableinfo (codestructure s2) = variableinfo (codestructure s1) ∧
        stacks (codestructure s2) = stacks (codestructure s1).
Proof.
  intros Hreg Hlab.
  destruct (register_expression_spec e d count s)
    as (vi0 & s0 & Heq & Hlook & _).
  rewrite Hreg in Heq. injection Heq as <- <-.
  destruct (register_expression_spec e' d' count' s1)
    as (vi2 & s2 & Hreg2 & _ & _ & _ & Hcase).
  rewrite Hlab, Hlook in Hcase. destruct Hcase as [-> Hcs].
  exists s2. by rewrite Hcs.
Qed.

Lemma register_expression_first_wins_witness :
  ∃ vi s1 s2,
    register_expression literal_1_23 deps_v (Some 4%nat) initial_state
    = Ok (vi, s1) ∧
    register_expression v_slot0 deps_u (Some 4%nat) s1 = Ok (vi, s2) ∧
    stacks (codestructure s2) = stacks (codestructure s1).
Proof.
  destruct (register_expression literal_1_23 deps_v (Some 4%nat) initial_state)
    as [[vi s1]|exn] eqn:Hreg; [|by vm_compute in Hreg].
  destruct (register_expression_first_wins literal_1_23 v_slot0 deps_v deps_u
              (Some 4%nat) (Some 4%nat) initial_state s1 vi Hreg eq_refl)
    as (s2 & Hreg2 & _ & Hst).
  exists vi, s1, s2. by split_and!.
Defined.

(** ** What every step of a run preserves *)

Lemma construct_codestructure (x : Expr) (ops : list Expr) (s : State)
    (e : Expr) (s' : State) :
  construct x ops s = Ok (e, s') → codestructure s' = codestructure s.
Proof.
  destruct x; try done. unfold construct, bind, new_id, ret.
  by intros [= _ <-].
Qed.

Section run_preserves.

(** A property of the code structure that registrations preserve is
    preserved by every step of a run: only [register_expression] writes
    to the code structure. *)
Variable P : CodeStructure → Prop.

Hypothesis P_register :
  ∀ e d count s vi s',
    P (codestructure s) → register_expression e d count s = Ok (vi, s') →
    P (codestructure s').

Variable formdata : FormData.
Variable basisfunction_deps : list DependencySet.
Variable function_deps : list DependencySet.

Lemma promote_ops_preserves (ops : list (Expr * DependencySet)) :
  ∀ s ops' s', P (codestructure s) → promote_ops ops s = Ok (ops', s') →
               P (codestructure s').
Proof using P_register.
  induction ops as [|o ops IH]; intros s ops' s' HP Hrun.
  - by injection Hrun as _ <-.
  - simpl in Hrun. apply bind_Ok in Hrun as (o' & s1 & Ho' & Hrun).
    apply bind_Ok in Hrun as (ops1 & s2 & Hops & Hret). injection Hret as _ <-.
    apply (IH s1 ops1 s2); [|done].
    destruct (isinstance_skiptypes o.1); [by injection Ho' as _ <-|].
    apply bind_Ok in Ho' as (vi & s0 & Hreg & Hret). injection Hret as _ <-.
    by eapply P_register.
Qed.

Lemma expr_preserves (x : Expr) (ops : list (Expr * DependencySet))
    (s : State) (r : Expr * DependencySet) (s' : State) :
  P (codestructure s) → expr x ops s = Ok (r, s') → P (codestructure s').
Proof using P_register.
  intros HP Hrun. destruct ops as [|o0 rest]; [done|]. unfold expr in Hrun.
  apply bind_Ok in Hrun as (ops' & s1 & Hops & Hrun).
  assert (HP1 : P (codestructure s1)).
  { destruct (existsb _ _); [|by injection Hops as _ <-].
    by eapply promote_ops_preserves. }
  destruct (all_is _ _); [by injection Hrun as _ <-|].
  apply bind_Ok in Hrun as (e & s2 & Hcons & Hret). injection Hret as _ <-.
  by rewrite (construct_codestructure _ _ _ _ _ Hcons).
Qed.

Lemma spatial_derivative_codestructure (x : Expr) (f ii : Expr * DependencySet)
    (s : State) (r : Expr * DependencySet) (s' : State) :
  spatial_derivative basisfunction_deps x f ii s = Ok (r, s') →
  codestructure s' = codestructure s.
Proof.
  unfold spatial_derivative. destruct (operands_of x) as [|o0 ?]; [done|].
  destruct (is_ f.1 o0); [by intros [= _ <-]|].
  intros (e & s2 & Hcons & Hret)%bind_Ok. injection Hret as _ <-.
  by eapply construct_codestructure.
Qed.

Lemma visit_preserves (o : Expr) :
  ∀ s r s', P (codestructure s) →
            visit formdata basisfunction_deps function_deps o s = Ok (r, s') →
            P (codestructure s').
Proof using P_register.
  induction o as [i cls|i e c IH|i cls ops IH] using Expr_ind_nested;
    intros s r s' HP Hrun.
  - destruct cls; simpl in Hrun;
      unfold terminal, facet_normal, basis_function, function, ret, raise in Hrun;
      repeat case_match; simplify_eq; done.
  - change (visit formdata basisfunction_deps function_deps (Variable_ i e c) s)
      with (variable_ (Variable_ i e c) s) in Hrun.
    rewrite variable_spec in Hrun.
    destruct (variableinfo (codestructure s) !! c); [|done]. by injection Hrun as _ <-.
  - rewrite visit_Operator in Hrun.
    apply bind_Ok in Hrun as (rs & s1 & Hall & Hrun).
    assert (HP1 : P (codestructure s1)).
    { clear Hrun. revert s rs s1 HP Hall.
      induction IH as [|o ops Ho _ IHops]; intros s rs s1 HP Hall.
      - by injection Hall as _ <-.
      - rewrite visit_all_cons in Hall.
        apply bind_Ok in Hall as (r0 & s0 & Hr0 & Hall).
        apply bind_Ok in Hall as (rs0 & s2 & Hrs0 & Hret).
        injection Hret as _ <-. eauto. }
    destruct cls; try (by eapply expr_preserves).
    destruct rs as [|f [|ii [|? ?]]]; try done.
    by rewrite (spatial_derivative_codestructure _ _ _ _ _ _ Hrun).
Qed.

Lemma visit_all_preserves (ops : list Expr) :
  ∀ s rs s', P (codestructure s) →
             visit_all formdata basisfunction_deps function_deps ops s = Ok (rs, s') →
             P (codestructure s').
Proof using P_register.
  induction ops as [|o ops IH]; intros s rs s' HP Hall.
  - by injection Hall as _ <-.
  - rewrite visit_all_cons in Hall.
    apply bind_Ok in Hall as (r0 & s0 & Hr0 & Hall).
    apply bind_Ok in Hall as (rs0 & s2 & Hrs0 & Hret).
    injection Hret as _ <-. eapply IH; [|done]. by eapply visit_preserves.
Qed.

Lemma handle_preserves (v : Expr) (s : State) (vi : VariableInfo) (s' : State) :
  P (codestructure s) →
  handle formdata basisfunction_deps function_deps v s = Ok (vi, s') →
  P (codestructure s').
Proof using P_register.
  intros HP Hrun. destruct v as [|i e c|]; try done.
  simpl in Hrun. unfold bind at 1 in Hrun. unfold variableinfo_get in Hrun.
  destruct (variableinfo (codestructure s) !! c); [by injection Hrun as _ <-|].
  apply bind_Ok in Hrun as (r & s1 & Hvis & Hreg).
  eapply P_register; [|done]. by eapply visit_preserves.
Qed.

Lemma handle_all_preserves (variables : list Expr) :
  ∀ acc s r s', P (codestructure s) →
    handle_all formdata basisfunction_deps function_deps variables acc s = Ok (r, s') →
    P (codestructure s').
Proof using P_register.
  induction variables as [|v vs IH]; intros acc s r s' HP Hrun.
  - by injection Hrun as _ <-.
  - simpl in Hrun. apply bind_Ok in Hrun as (vi & s1 & Hh & Hrun).
    eapply IH; [|done]. by eapply handle_preserves.
Qed.

Lemma split_by_dependencies_preserves (extract_variables : Expr → list Expr)
    (expression : Expr) (n0 g0 : nat) (vinfo : VariableInfo)
    (cs : CodeStructure) (s' : State) :
  P (mkCodeStructure ∅ []) →
  split_by_dependencies formdata basisfunction_deps function_deps extract_variables
    expression n0 g0 = Ok ((vinfo, cs), s') →
  P cs.
Proof using P_register.
  intros HP Hrun. unfold split_by_dependencies in Hrun.
  apply bind_Ok in Hrun as (variables & s1 & Hpre & Hrun).
  apply bind_Ok in Hrun as (r & s2 & Hall & Hret).
  destruct r as [vi|]; [|done]. injection Hret as _ <- _.
  eapply handle_all_preserves; [|done].
  destruct (isinstance_Variable expression).
  - destruct (last (extract_variables expression)) as [l|]; [|done].
    apply bind_Ok in Hpre as ([] & s0 & Hassert & Hret).
    injection Hret as _ <-. unfold ufl_assert in Hassert.
    destruct (is_ expression l); [|done]. by injection Hassert as <-.
  - unfold bind, new_Variable, bind, new_Label, new_id, ret in Hpre. simpl in Hpre.
    by injection Hpre as _ <-.
Qed.

End run_preserves.

(** ** A run only adds to the code structure *)

Lemma cs_extends_refl (cs : CodeStructure) : cs_extends cs cs.
Proof. split; [done|]. intros k key stack H. by exists stack. Qed.

Lemma register_expression_extends (cs0 : CodeStructure) (e : Expr)
    (d : DependencySet) (count : option nat) (s : State)
    (vi : VariableInfo) (s' : State) :
  cs_extends cs0 (codestructure s) →
  register_expression e d count s = Ok (vi, s') →
  cs_extends cs0 (codestructure s').
Proof.
  intros [Hsub Hst] Hreg.
  destruct (register_expression_spec e d count s)
    as (vi1 & s1 & Heq & _ & _ & _ & Hcase).
  rewrite Hreg in Heq. injection Heq as <- <-.
  destruct (variableinfo (codestructure s) !! registration_label e count s)
    as [vi0|] eqn:Hc.
  - destruct Hcase as [_ ->]. by split.
  - destruct Hcase as (_ & _ & _ & _ & ->). unfold cs_extends. simpl. split.
    + etrans; [exact Hsub|]. by apply insert_subseteq.
    + intros k key stack Hk. destruct (Hst k key stack Hk) as (stack1 & Hk1 & Hpre).
      destruct (decide (k = d)) as [->|Hne].
      * rewrite stacks_get_append_eq, Hk1. eexists. split; [done|].
        by apply prefix_app_r.
      * rewrite stacks_get_append_ne by done. eauto.
Qed.

(** X12. Visiting an expression never removes or rebinds a registered
    label and never removes, reorders or shortens a stack: after a
    successful visit every label registered before is bound to the same
    info, and every stack found before is found under the same key with
    the old stack as a prefix. *)
Theorem visit_only_grows (formdata : FormData)
    (basisfunction_deps function_deps : list DependencySet)
    (o : Expr) (s : State) (r : Expr * DependencySet) (s' : State) :
  visit formdata basisfunction_deps function_deps o s = Ok (r, s') →
  (∀ c vi, variableinfo (codestructure s) !! c = Some vi →
           variableinfo (codestructure s') !! c = Some vi) ∧
  (∀ k key stack,
     stacks_get (stacks (codestructure s)) k = Some (key, stack) →
     ∃ stack', stacks_get (stacks (codestructure s')) k = Some (key, stack') ∧
               stack `prefix_of` stack').
Proof.
  intros Hrun.
  destruct (visit_preserves (cs_extends (codestructure s))
              (register_expression_extends (codestructure s))
              formdata basisfunction_deps function_deps o s r s'
              (cs_extends_refl _) Hrun) as [Hsub Hst].
  split; [|done]. intros c vi Hc. by eapply lookup_weaken.
Qed.

Lemma visit_only_grows_witness :
  ∃ r s',
    visit formdata_by_count [deps_v; deps_u] [] product_1_23_v one_variable_state
    = Ok (r, s') ∧
    variableinfo (codestructure s') !! 5%nat = Some zero_info.
Proof.
  destruct (visit formdata_by_count [deps_v; deps_u] [] product_1_23_v
              one_variable_state) as [[r s']|exn] eqn:Hrun; [|by vm_compute in Hrun].
  exists r, s'. split; [reflexivity|].
  destruct (visit_only_grows formdata_by_count [deps_v; deps_u] []
              product_1_23_v one_variable_state r s' Hrun) as [Hsub _].
  apply Hsub. vm_compute. reflexivity.
Defined.

Lemma handle_registers (formdata : FormData)
    (basisfunction_deps function_deps : list DependencySet)
    (v : Expr) (s : State) (vi : VariableInfo) (s' : State) :
  handle formdata basisfunction_deps function_deps v s = Ok (vi, s') →
  ∃ i e c, v = Variable_ i e c ∧ variableinfo (codestructure s') !! c = Some vi.
Proof.
  intros Hrun. destruct v as [|i e c|]; try done. exists i, e, c. split; [done|].
  simpl in Hrun. unfold bind at 1 in Hrun. unfold variableinfo_get in Hrun.
  destruct (variableinfo (codestructure s) !! c) as [vi0|] eqn:Hc.
  - by injection Hrun as <- <-.
  - apply bind_Ok in Hrun as (r & s1 & Hvis & Hreg).
    destruct (register_expression_spec r.1 r.2 (Some c) s1)
      as (vi1 & s2 & Heq & Hlook & _).
    rewrite Hreg in Heq. by injection Heq as <- <-.
Qed.

(** X14. [handle] memoizes by label: after [handle] has answered an info
    for a variable, handling any variable of the same label, whatever
    its expression, answers that info at once and leaves the state as it
    is. *)
Theorem handle_memoizes (formdata : FormData)
    (basisfunction_deps function_deps : list DependencySet)
    (v : Expr) (s : State) (vi : VariableInfo) (s1 : State) :
  handle formdata basisfunction_deps function_deps v s = Ok (vi, s1) →
  handle formdata basisfunction_deps function_deps v s1 = Ok (vi, s1) ∧
  ∃ i e c, v = Variable_ i e c ∧
    ∀ i' e', handle formdata basisfunction_deps function_deps
               (Variable_ i' e' c) s1 = Ok (vi, s1).
Proof.
  intros Hrun. destruct (handle_registers _ _ _ _ _ _ _ Hrun) as (i & e & c & -> & Hc).
  assert (Hany : ∀ i' e', handle formdata basisfunction_deps function_deps
                            (Variable_ i' e' c) s1 = Ok (vi, s1)).
  { intros i' e'. simpl. unfold bind at 1. unfold variableinfo_get. by rewrite Hc. }
  split; [apply Hany | eauto].
Qed.

Lemma handle_memoizes_witness :
  ∃ vi s1,
    handle formdata_by_count [deps_v; deps_u] [] named_product initial_state
    = Ok (vi, s1) ∧
    handle formdata_by_count [deps_v; deps_u] [] named_product s1 = Ok (vi, s1).
Proof.
  destruct (handle formdata_by_count [deps_v; deps_u] [] named_product initial_state)
    as [[vi s1]|exn] eqn:Hrun; [|by vm_compute in Hrun].
  exists vi, s1. split; [reflexivity|].
  apply (handle_memoizes formdata_by_count [deps_v; deps_u] [] named_product
           initial_state vi s1 Hrun).
Defined.

(** ** The stacks and the registry hold the same infos *)

Lemma stacks_append_elem (st : list (DependencySet * list VariableInfo))
    (d k : DependencySet) (vi : VariableInfo) (stack : list VariableInfo) :
  (k, stack) ∈ stacks_append st d vi →
  (k, stack) ∈ st ∨ ∃ old, stack = old ++ [vi].
Proof.
  induction st as [|[k0 stack0] st IH]; simpl.
  - intros Hk%list_elem_of_singleton. injection Hk as -> ->. right. by exists [].
  - destruct (key_match k0 d).
    + intros [Heq|Hin]%elem_of_cons.
      * injection Heq as -> ->. right. by exists stack0.
      * left. by right.
    + intros [Heq|Hin]%elem_of_cons.
      * injection Heq as -> ->. left. by left.
      * destruct (IH Hin) as [?|?]; [left; by right | by right].
Qed.

Lemma register_expression_registry (e : Expr) (d : DependencySet)
    (count : option nat) (s : State) (vi : VariableInfo) (s' : State) :
  registry_in_stacks (codestructure s) →
  register_expression e d count s = Ok (vi, s') →
  registry_in_stacks (codestructure s').
Proof.
  intros [Hperm Hne] Hreg.
  destruct (register_expression_spec e d count s)
    as (vi1 & s1 & Heq & _ & _ & _ & Hcase).
  rewrite Hreg in Heq. injection Heq as <- <-.
  destruct (variableinfo (codestructure s) !! registration_label e count s)
    as [vi0|] eqn:Hc.
  - destruct Hcase as [_ ->]. by split.
  - destruct Hcase as (_ & _ & _ & _ & ->). unfold registry_in_stacks. simpl. split.
    + rewrite stacks_append_concat, map_to_list_insert by done. csimpl.
      by rewrite Hperm.
    + intros k stack [Hin|[old ->]]%stacks_append_elem; [by eapply Hne|].
      by destruct old.
Qed.

(** X8. After a run of [split_by_dependencies] that succeeds, the infos
    in the stacks are exactly the infos bound in [variableinfo], each
    once: the stacks put together are a rearrangement of the values of
    [variableinfo], so there are as many infos in the stacks as
    registered labels; and no stack is empty. *)
Theorem split_by_dependencies_registry_in_stacks (formdata : FormData)
    (basisfunction_deps function_deps : list DependencySet)
    (extract_variables : Expr → list Expr) (expression : Expr) (n0 g0 : nat)
    (vinfo : VariableInfo) (cs : CodeStructure) (s' : State) :
  split_by_dependencies formdata basisfunction_deps function_deps extract_variables
    expression n0 g0 = Ok ((vinfo, cs), s') →
  concat (stacks cs).*2 ≡ₚ (map_to_list (variableinfo cs)).*2 ∧
  (∀ k stack, (k, stack) ∈ stacks cs → stack ≠ []) ∧
  length (concat (stacks cs).*2) = size (variableinfo cs).
Proof.
  intros Hrun.
  destruct (split_by_dependencies_preserves registry_in_stacks
              register_expression_registry formdata basisfunction_deps
              function_deps extract_variables expression n0 g0 vinfo cs s')
    as [Hperm Hne]; [|done|].
  - split; simpl; [by rewrite map_to_list_empty | by intros k stack ?%elem_of_nil].
  - split_and!; [done | done |].
    by rewrite Hperm, length_fmap, length_map_to_list.
Qed.

Lemma split_by_dependencies_registry_in_stacks_witness :
  ∃ vinfo cs s',
    split_by_dependencies formdata_by_count [deps_v; deps_u] []
      extract_variables_post product_1_23_v 8 1 = Ok ((vinfo, cs), s') ∧
    length (concat (stacks cs).*2) = size (variableinfo cs).
Proof.
  destruct (split_by_dependencies formdata_by_count [deps_v; deps_u] []
              extract_variables_post product_1_23_v 8 1)
    as [[[vinfo cs] s']|exn] eqn:Hrun; [|by vm_compute in Hrun].
  exists vinfo, cs, s'. split; [reflexivity|].
  apply (split_by_dependencies_registry_in_stacks formdata_by_count [deps_v; deps_u] []
           extract_variables_post product_1_23_v 8 1 vinfo cs s' Hrun).
Defined.

Lemma handle_all_registers (formdata : FormData)
    (basisfunction_deps function_deps : list DependencySet)
    (variables : list Expr) :
  ∀ acc s r s',
    handle_all formdata basisfunction_deps function_deps variables acc s
    = Ok (r, s') →
    ∀ v, v ∈ variables →
         ∃ i e c vi, v = Variable_ i e c ∧
                     variableinfo (codestructure s') !! c = Some vi.
Proof.
  induction variables as [|v0 vs IH]; intros acc s r s' Hrun v Hv.
  - by apply elem_of_nil in Hv.
  - simpl in Hrun. apply bind_Ok in Hrun as (vi & s1 & Hh & Hrun).
    apply elem_of_cons in Hv as [->|Hv]; [|by eapply IH].
    destruct (handle_registers _ _ _ _ _ _ _ Hh) as (i & e & c & -> & Hc).
    exists i, e, c, vi. split; [done|].
    destruct (handle_all_preserves (cs_extends (codestructure s1))
                (register_expression_extends (codestructure s1))
                formdata basisfunction_deps function_deps vs (Some vi) s1 r s'
                (cs_extends_refl _) Hrun) as [Hsub _].
    by eapply lookup_weaken.
Qed.

(** X17. After a run of [split_by_dependencies] that succeeds, every
    expression answered by [extract_variables] for the input is a
    variable and its label is registered in the code structure
    answered. *)
Theorem split_by_dependencies_registers_extracted (formdata : FormData)
    (basisfunction_deps function_deps : list DependencySet)
    (extract_variables : Expr → list Expr) (expression : Expr) (n0 g0 : nat)
    (vinfo : VariableInfo) (cs : CodeStructure) (s' : State) :
  split_by_dependencies formdata basisfunction_deps function_deps extract_variables
    expression n0 g0 = Ok ((vinfo, cs), s') →
  ∀ v, v ∈ extract_variables expression →
       ∃ i e c vi, v = Variable_ i e c ∧ variableinfo cs !! c = Some vi.
Proof.
  intros Hrun v Hv. unfold split_by_dependencies in Hrun.
  apply bind_Ok in Hrun as (variables & s1 & Hpre & Hrun).
  apply bind_Ok in Hrun as (r & s2 & Hall & Hret).
  destruct r as [vi|]; [|done]. injection Hret as _ <- _.
  eapply handle_all_registers; [exact Hall|].
  destruct (isinstance_Variable expression).
  - destruct (last (extract_variables expression)) as [l|]; [|done].
    apply bind_Ok in Hpre as ([] & s0 & Hassert & Hret). by injection Hret as <- _.
  - unfold bind, new_Variable, bind, new_Label, new_id, ret in Hpre. simpl in Hpre.
    injection Hpre as <- _. apply elem_of_app. by left.
Qed.

Lemma split_by_dependencies_registers_extracted_witness :
  ∃ vinfo cs s',
    split_by_dependencies formdata_by_count [deps_v; deps_u] []
      extract_variables_post named_product 8 1 = Ok ((vinfo, cs), s') ∧
    ∃ i e c vi, named_product = Variable_ i e c ∧ variableinfo cs !! c = Some vi.
Proof.
  destruct (split_by_dependencies formdata_by_count [deps_v; deps_u] []
              extract_variables_post named_product 8 1)
    as [[[vinfo cs] s']|exn] eqn:Hrun; [|by vm_compute in Hrun].
  exists vinfo, cs, s'. split; [reflexivity|].
  apply (split_by_dependencies_registers_extracted formdata_by_count
           [deps_v; deps_u] [] extract_variables_post named_product 8 1
           vinfo cs s' Hrun).
  simpl. by left.
Defined.

(** ** Terminals *)

(** X9. Visiting a terminal never rewrites it and never touches the
    state: a visit that succeeds answers the node itself in the state it
    started from. Terminals other than basis functions and coefficient
    functions always succeed, with all flags false, except for a facet
    normal, whose runtime flag alone is set. A basis function succeeds
    exactly when the renumbering knows it and its slot is within
    [basisfunction_deps], and then has the dependency set of its slot; a
    coefficient function likewise with [function_deps]. *)
Theorem visit_terminal_outcomes (formdata : FormData)
    (basisfunction_deps function_deps : list DependencySet)
    (i : nat) (cls : terminal_class) (s : State) :
  (∀ r s', visit formdata basisfunction_deps function_deps (Terminal i cls) s
           = Ok (r, s') → r.1 = Terminal i cls ∧ s' = s) ∧
  match cls with
  | BasisFunction _ =>
      ∀ d, visit formdata basisfunction_deps function_deps (Terminal i cls) s
           = Ok ((Terminal i cls, d), s) ↔
           ∃ slot, basisfunction_renumbering formdata (Terminal i cls) = Some slot ∧
                   basisfunction_deps !! slot = Some d
  | Function _ =>
      ∀ d, visit formdata basisfunction_deps function_deps (Terminal i cls) s
           = Ok ((Terminal i cls, d), s) ↔
           ∃ slot, coefficient_renumbering formdata (Terminal i cls) = Some slot ∧
                   function_deps !! slot = Some d
  | FacetNormal =>
      visit formdata basisfunction_deps function_deps (Terminal i cls) s
      = Ok ((Terminal i cls,
             mkDependencySet (replicate (length basisfunction_deps) false)
               true false), s)
  | _ =>
      visit formdata basisfunction_deps function_deps (Terminal i cls) s
      = Ok ((Terminal i cls,
             mkDependencySet (replicate (length basisfunction_deps) false)
               false false), s)
  end.
Proof.
  split.
  - intros r s' Hrun. destruct cls; simpl in Hrun;
      unfold terminal, facet_normal, basis_function, function, ret, raise in Hrun;
      repeat case_match; simplify_eq; done.
  - destruct cls; try reflexivity; intros d; simpl;
      unfold basis_function, function, ret, raise.
    + destruct (basisfunction_renumbering formdata _) as [slot|]; [|split].
      * destruct (basisfunction_deps !! slot) as [d'|] eqn:Hslot; split.
        -- intros [= ->]. eauto.
        -- intros (slot' & [= <-] & Hd). by rewrite Hslot in Hd; injection Hd as ->.
        -- done.
        -- intros (slot' & [= <-] & Hd). by rewrite Hslot in Hd.
      * done.
      * by intros (slot & ? & _).
    + destruct (coefficient_renumbering formdata _) as [slot|]; [|split].
      * destruct (function_deps !! slot) as [d'|] eqn:Hslot; split.
        -- intros [= ->]. eauto.
        -- intros (slot' & [= <-] & Hd). by rewrite Hslot in Hd; injection Hd as ->.
        -- done.
        -- intros (slot' & [= <-] & Hd). by rewrite Hslot in Hd.
      * done.
      * by intros (slot & ? & _).
Qed.

(** ** Constant expressions *)

Lemma DependencySet_or_empty_empty (bdeps : list DependencySet) :
  DependencySet_or (make_empty_deps bdeps) (make_empty_deps bdeps)
  = make_empty_deps bdeps.
Proof. apply DependencySet_or_empty_l. simpl. apply length_replicate. Qed.

Lemma all_is_diag (ops : list Expr) (i : nat) (cls : operator_class) :
  all_is ops (Operator i cls ops) = true.
Proof.
  unfold all_is. simpl. induction ops as [|o ops IH]; simpl; [done|].
  rewrite IH, andb_true_r. unfold is_. by apply bool_decide_eq_true.
Qed.

(** [expr] on operands that were answered unchanged, all without
    dependencies. *)
Lemma expr_constant_operands (bdeps : list DependencySet) (i : nat)
    (cls : operator_class) (o0 : Expr) (ops : list Expr) (s : State) :
  expr (Operator i cls (o0 :: ops))
    (map (λ o, (o, make_empty_deps bdeps)) (o0 :: ops)) s
  = Ok ((Operator i cls (o0 :: ops), make_empty_deps bdeps), s).
Proof.
  set (E := make_empty_deps bdeps).
  assert (Hd : ∀ l : list Expr,
            fold_left (λ d o, DependencySet_or d o.2) (map (λ o, (o, E)) l) E = E).
  { induction l as [|o l IH]; simpl; [done|].
    unfold E at 2 3. rewrite DependencySet_or_empty_empty. exact IH. }
  assert (Hne : ∀ l : list Expr,
            existsb (λ o, DependencySet_ne o.2 E) (map (λ o, (o, E)) l) = false).
  { induction l as [|o l IH]; simpl; [done|]. rewrite IH, orb_false_r.
    by rewrite DependencySet_ne_covers, DependencySet_covers_refl. }
  unfold expr. cbn [map]. unfold combine_deps. cbn [snd]. rewrite Hd.
  change ((o0, E) :: map (λ o, (o, E)) ops) with (map (λ o, (o, E)) (o0 :: ops)).
  rewrite Hne. unfold bind, ret.
  rewrite map_map. cbn [fst]. rewrite map_id.
  by rewrite all_is_diag.
Qed.

(** X11. A constant expression is never touched: visiting a tree made of
    operators with operands (no spatial derivative) over terminals that
    are neither basis functions, coefficient functions nor facet normals
    succeeds, answers the very node with all flags false, registers
    nothing and leaves the state as it is. *)
Theorem visit_constant_tree (formdata : FormData)
    (basisfunction_deps function_deps : list DependencySet) (o : Expr) :
  constant_tree o = true →
  ∀ s, visit formdata basisfunction_deps function_deps o s
       = Ok ((o, mkDependencySet (replicate (length basisfunction_deps) false)
                   false false), s).
Proof.
  induction o as [i cls|i e c IH|i cls ops IH] using Expr_ind_nested;
    intros Hc s.
  - by destruct cls.
  - done.
  - assert (Hops : ops ≠ [] ∧ cls ≠ SpatialDerivative ∧
                   Forall (λ o, constant_tree o = true) ops).
    { destruct ops as [|o0 ops']; [by destruct cls|].
      split; [done|]. split; [by intros ->|].
      assert (Hall : (fix all_constant (l : list Expr) : bool :=
                        match l with
                        | [] => true
                        | o :: l' => constant_tree o && all_constant l'
                        end) (o0 :: ops') = true) by by destruct cls.
      clear -Hall. induction (o0 :: ops') as [|o l IHl]; [constructor|].
      apply andb_true_iff in Hall as [Ho Hl]. constructor; auto. }
    destruct Hops as (Hne & Hcls & Hall).
    assert (Hvis : ∀ s, visit_all formdata basisfunction_deps function_deps ops s
                        = Ok (map (λ o, (o, make_empty_deps basisfunction_deps)) ops, s)).
    { clear Hne Hc. induction IH as [|o l Ho _ IHl]; intros s0; [done|].
      apply Forall_cons in Hall as [Hco Hcl].
      rewrite visit_all_cons. unfold bind.
      rewrite (Ho Hco s0), (IHl Hcl s0). done. }
    rewrite visit_Operator. unfold bind at 1. rewrite Hvis.
    destruct ops as [|o0 ops']; [done|].
    destruct cls; try done; apply expr_constant_operands.
Qed.

Lemma visit_constant_tree_witness :
  visit formdata_by_count [deps_v; deps_u] []
    (Operator 3 Sum [literal_1_23; Operator 4 Product [literal_1_23; multi_index]])
    initial_state
  = Ok ((Operator 3 Sum [literal_1_23; Operator 4 Product [literal_1_23; multi_index]],
         mkDependencySet [false; false] false false), initial_state).
Proof.
  apply (visit_constant_tree formdata_by_count [deps_v; deps_u] []
           (Operator 3 Sum
              [literal_1_23; Operator 4 Product [literal_1_23; multi_index]])).
  reflexivity.
Defined.

(** ** Dependencies flow upwards *)

Lemma visit_all_length (formdata : FormData)
    (basisfunction_deps function_deps : list DependencySet) (ops : list Expr) :
  tables_wf basisfunction_deps function_deps →
  ∀ s rs s',
    deps_wf (length basisfunction_deps) s →
    visit_all formdata basisfunction_deps function_deps ops s = Ok (rs, s') →
    deps_wf (length basisfunction_deps) s' ∧
    Forall (λ o, length (basisfunctions o.2) = length basisfunction_deps) rs.
Proof.
  intros Htables. induction ops as [|o ops IH]; intros s rs s' Hwf Hall.
  - injection Hall as <- <-. by split.
  - rewrite visit_all_cons in Hall.
    apply bind_Ok in Hall as (r0 & s0 & Hr0 & Hall).
    apply bind_Ok in Hall as (rs0 & s2 & Hrs0 & Hret).
    injection Hret as <- <-.
    destruct (visit_length formdata _ _ Htables o _ _ _ Hwf Hr0) as [Hwf0 Hlen0].
    destruct (IH _ _ _ Hwf0 Hrs0) as [Hwf2 Hlen2].
    split; [done | by constructor].
Qed.

(** X10. In a run over tables whose dependency sets have one flag per
    slot, dependencies flow upwards: the dependency set answered for an
    operator node handled by the generic rule covers the dependency set
    answered for each of its operands, and the one answered for a spatial
    derivative covers that of the differentiated operand and has the
    runtime flag set. *)
Theorem visit_deps_cover_operands (formdata : FormData)
    (basisfunction_deps function_deps : list DependencySet)
    (i : nat) (cls : operator_class) (ops : list Expr)
    (s s1 s' : State) (rs : list (Expr * DependencySet))
    (e : Expr) (d : DependencySet) :
  tables_wf basisfunction_deps function_deps →
  deps_wf (length basisfunction_deps) s →
  visit_all formdata basisfunction_deps function_deps ops s = Ok (rs, s1) →
  visit formdata basisfunction_deps function_deps (Operator i cls ops) s
  = Ok ((e, d), s') →
  (cls ≠ SpatialDerivative →
   ∀ o, o ∈ rs → DependencySet_covers d o.2 = true) ∧
  (cls = SpatialDerivative →
   ∃ f ii, rs = [f; ii] ∧ DependencySet_covers d f.2 = true ∧ runtime d = true).
Proof.
  intros Htables Hwf Hall Hrun.
  destruct (visit_all_length formdata _ _ ops Htables s rs s1 Hwf Hall) as [_ Hlen].
  rewrite visit_Operator in Hrun. unfold bind in Hrun. rewrite Hall in Hrun.
  assert (Hexpr : ∀ x, expr x rs s1 = Ok ((e, d), s') →
                       ∀ o, o ∈ rs → DependencySet_covers d o.2 = true).
  { intros x Hx. destruct rs as [|o0 rest]; [done|]. unfold expr in Hx.
    apply bind_Ok in Hx as (ops' & s2 & _ & Hx).
    assert (d = combine_deps o0 rest) as ->.
    { destruct (all_is _ _); [by injection Hx as _ <- _|].
      apply bind_Ok in Hx as (e0 & s3 & _ & Hret). by injection Hret as _ <- _. }
    by destruct (combine_deps_covers o0 rest _ Hlen) as (_ & _ & Hcov). }
  split.
  - intros Hcls. destruct cls; try done; by eapply Hexpr.
  - intros ->. destruct rs as [|f [|ii [|? ?]]]; try done.
    exists f, ii. split; [done|].
    unfold spatial_derivative in Hrun. destruct (operands_of _) as [|o0 ?]; [done|].
    assert (d = DependencySet_or f.2 (runtime_deps basisfunction_deps)) as ->.
    { destruct (is_ f.1 o0); [by injection Hrun as _ <- _|].
      apply bind_Ok in Hrun as (e0 & s3 & _ & Hret). by injection Hret as _ <- _. }
    split; [apply DependencySet_covers_or_l|]. simpl. apply orb_true_r.
Qed.

Lemma visit_deps_cover_operands_witness :
  ∃ e d s',
    visit formdata_by_count [deps_v; deps_u] [] product_1_23_v initial_state
    = Ok ((e, d), s') ∧
    DependencySet_covers d deps_v = true.
Proof.
  destruct (visit formdata_by_count [deps_v; deps_u] [] product_1_23_v initial_state)
    as [[[e d] s']|exn] eqn:Hrun; [|by vm_compute in Hrun].
  destruct (visit_all formdata_by_count [deps_v; deps_u] []
              [literal_1_23; v_slot0] initial_state)
    as [[rs s1]|exn] eqn:Hall; [|by vm_compute in Hall].
  exists e, d, s'. split; [reflexivity|].
  destruct (visit_deps_cover_operands formdata_by_count [deps_v; deps_u] []
              2 Product [literal_1_23; v_slot0] initial_state s1 s' rs e d)
    as [Hcov _].
  - split; repeat constructor.
  - intros c vi Hc. vm_compute in Hc. discriminate.
  - exact Hall.
  - exact Hrun.
  - apply (Hcov ltac:(done) (v_slot0, deps_v)).
    vm_compute in Hall. injection Hall as <- _. right. by left.
Defined.

(** ** Failures *)

Lemma visit_all_app_Raise (formdata : FormData)
    (basisfunction_deps function_deps : list DependencySet)
    (ops1 : list Expr) (o : Expr) (ops2 : list Expr) (exn : exception) :
  ∀ s rs1 s1,
    visit_all formdata basisfunction_deps function_deps ops1 s = Ok (rs1, s1) →
    visit formdata basisfunction_deps function_deps o s1 = Raise exn →
    visit_all formdata basisfunction_deps function_deps (ops1 ++ o :: ops2) s
    = Raise exn.
Proof.
  induction ops1 as [|o1 ops1 IH]; intros s rs1 s1 Hall Ho.
  - injection Hall as _ <-. change ([] ++ o :: ops2) with (o :: ops2).
    rewrite visit_all_cons. unfold bind. by rewrite Ho.
  - rewrite visit_all_cons in Hall.
    apply bind_Ok in Hall as (r0 & s0 & Hr0 & Hall).
    apply bind_Ok in Hall as (rs0 & s2 & Hrs0 & Hret). injection Hret as _ <-.
    change ((o1 :: ops1) ++ o :: ops2) with (o1 :: (ops1 ++ o :: ops2)).
    rewrite visit_all_cons. unfold bind at 1. rewrite Hr0.
    unfold bind. by rewrite (IH _ _ _ Hrs0 Ho).
Qed.

Lemma handle_Variable (formdata : FormData)
    (basisfunction_deps function_deps : list DependencySet)
    (i : nat) (e : Expr) (c : nat) :
  handle formdata basisfunction_deps function_deps (Variable_ i e c) =
  bind (variableinfo_get c)
    (λ vinfo, match vinfo with
              | None =>
                  bind (visit formdata basisfunction_deps function_deps e)
                    (λ r, register_expression r.1 r.2 (Some c))
              | Some vinfo => ret vinfo
              end).
Proof. reflexivity. Qed.

(** X13. A failure is never swallowed: when the operands before [o] are
    visited successfully and the visit of [o] then raises, the visit of
    the operator node raises the same exception, whatever its class and
    its later operands, and so does [handle] on an unregistered variable
    that wraps the node. When [o] is a variable this is the case of a
    label that is not registered by then, and the exception is the
    failed assertion of [variable]. *)
Theorem visit_failure_propagates (formdata : FormData)
    (basisfunction_deps function_deps : list DependencySet)
    (i : nat) (cls : operator_class) (ops1 : list Expr) (o : Expr)
    (ops2 : list Expr) (exn : exception)
    (s : State) (rs1 : list (Expr * DependencySet)) (s1 : State) :
  visit_all formdata basisfunction_deps function_deps ops1 s = Ok (rs1, s1) →
  visit formdata basisfunction_deps function_deps o s1 = Raise exn →
  visit formdata basisfunction_deps function_deps
    (Operator i cls (ops1 ++ o :: ops2)) s = Raise exn ∧
  (∀ j c, variableinfo (codestructure s) !! c = None →
          handle formdata basisfunction_deps function_deps
            (Variable_ j (Operator i cls (ops1 ++ o :: ops2)) c) s = Raise exn) ∧
  (∀ j e c, o = Variable_ j e c →
            variableinfo (codestructure s1) !! c = None ∧
            exn = UFLException "Haven't handled variable in time").
Proof.
  intros Hall Ho.
  assert (Hvis : visit formdata basisfunction_deps function_deps
                   (Operator i cls (ops1 ++ o :: ops2)) s = Raise exn).
  { rewrite visit_Operator. unfold bind.
    by rewrite (visit_all_app_Raise _ _ _ _ _ _ _ _ _ _ Hall Ho). }
  split_and!.
  - done.
  - intros j c Hc. rewrite handle_Variable. unfold bind at 1, variableinfo_get.
    rewrite Hc. unfold bind. by rewrite Hvis.
  - intros j e c ->.
    change (visit formdata basisfunction_deps function_deps (Variable_ j e c) s1)
      with (variable_ (Variable_ j e c) s1) in Ho.
    rewrite variable_spec in Ho.
    destruct (variableinfo (codestructure s1) !! c); [done|]. by injection Ho as <-.
Qed.

Lemma visit_failure_propagates_witness :
  visit formdata_by_count [deps_v; deps_u] []
    (Operator 3 Sum [literal_1_23; Variable_ 9 (Terminal 0 Zero) 7; v_slot0])
    initial_state
  = Raise (UFLException "Haven't handled variable in time").
Proof.
  apply (visit_failure_propagates formdata_by_count [deps_v; deps_u] []
           3 Sum [literal_1_23] (Variable_ 9 (Terminal 0 Zero) 7) [v_slot0]
           (UFLException "Haven't handled variable in time")
           initial_state [(literal_1_23, make_empty_deps [deps_v; deps_u])]
           initial_state); reflexivity.
Defined.

(** X15. What [split_by_dependencies] rejects. When the input is a
    variable and [extract_variables] answers nothing, indexing the last
    result raises; when the last result is not the input object, the
    assertion fails. When the input is not a variable and the first
    extracted expression is not a variable, [handle] fails with
    "Expecting Variable.". An operator without operands cannot be split:
    with nothing extracted the run raises, with the failed assertion of
    [expr] unless the node is a spatial derivative. *)
Theorem split_by_dependencies_rejects (formdata : FormData)
    (basisfunction_deps function_deps : list DependencySet)
    (extract_variables : Expr → list Expr) (expression : Expr) (n0 g0 : nat) :
  (isinstance_Variable expression = true → extract_variables expression = [] →
   split_by_dependencies formdata basisfunction_deps function_deps
     extract_variables expression n0 g0 = Raise IndexError) ∧
  (isinstance_Variable expression = true →
   ∀ l, last (extract_variables expression) = Some l → is_ expression l = false →
        split_by_dependencies formdata basisfunction_deps function_deps
          extract_variables expression n0 g0
        = Raise (UFLException "Expecting the last result to be the input variable")) ∧
  (isinstance_Variable expression = false →
   ∀ v rest, extract_variables expression = v :: rest →
             isinstance_Variable v = false →
             split_by_dependencies formdata basisfunction_deps function_deps
               extract_variables expression n0 g0
             = Raise (UFLException "Expecting Variable.")) ∧
  (∀ i cls, expression = Operator i cls [] → extract_variables expression = [] →
     ∃ exn,
       split_by_dependencies formdata basisfunction_deps function_deps
         extract_variables expression n0 g0 = Raise exn ∧
       (cls ≠ SpatialDerivative →
        exn = UFLException "Non-terminal with no ops should never occur.")).
Proof.
  unfold split_by_dependencies. split_and!.
  - intros Hvar Hext. rewrite Hvar, Hext. reflexivity.
  - intros Hvar l Hl His. rewrite Hvar, Hl. unfold ufl_assert. rewrite His.
    reflexivity.
  - intros Hvar v rest Hext Hv. rewrite Hvar, Hext.
    unfold bind at 1. unfold bind at 1. unfold new_Variable, bind, new_Label, new_id, ret.
    destruct v; done.
  - intros i cls -> Hext. rewrite Hext. cbn [isinstance_Variable app].
    cbv beta iota zeta delta
      [handle_all handle visit bind ret new_Variable new_Label new_id
       variableinfo_get raise codestructure next_id Label_globalcount
       variableinfo stacks].
    rewrite lookup_empty. destruct cls; eexists; (split; [reflexivity|done]).
Qed.

(** X16. Splitting a single terminal that is neither a basis function nor
    a coefficient function, with nothing extracted from it, always
    succeeds and registers one variable: the wrapper of the terminal,
    under the label the global counter had, with all flags false (the
    runtime flag alone set for a facet normal); the code structure has
    this one label and one stack, which holds the info answered. *)
Theorem split_by_dependencies_terminal (formdata : FormData)
    (basisfunction_deps function_deps : list DependencySet)
    (extract_variables : Expr → list Expr)
    (i : nat) (cls : terminal_class) (n0 g0 : nat) :
  table_terminal cls = false →
  extract_variables (Terminal i cls) = [] →
  ∃ vinfo cs s',
    split_by_dependencies formdata basisfunction_deps function_deps
      extract_variables (Terminal i cls) n0 g0 = Ok ((vinfo, cs), s') ∧
    variable vinfo = Variable_ (S n0) (Terminal i cls) g0 ∧
    deps vinfo =
      mkDependencySet (replicate (length basisfunction_deps) false)
        match cls with FacetNormal => true | _ => false end false ∧
    variableinfo cs = {[ g0 := vinfo ]} ∧
    stacks cs = [(deps vinfo, [vinfo])].
Proof.
  intros Hcls Hext. unfold split_by_dependencies. rewrite Hext.
  cbn [isinstance_Variable app].
  destruct cls; try done;
    cbv beta iota zeta delta
      [handle_all handle visit bind ret new_Variable new_Label new_id
       variableinfo_get terminal facet_normal raise codestructure next_id
       Label_globalcount variableinfo stacks];
    rewrite lookup_empty;
    cbv beta iota zeta delta
      [fst snd bind ret register_expression new_Variable new_Label new_id
       variableinfo_get new_VariableInfo codestructure_add raise codestructure
       next_id Label_globalcount variableinfo stacks stacks_append];
    rewrite lookup_empty;
    eexists _, _, _; (split; [reflexivity|]); simpl; rewrite insert_empty; done.
Qed.

Lemma split_by_dependencies_terminal_witness :
  ∃ vinfo cs s',
    split_by_dependencies formdata_by_count [] [] extract_variables_post
      literal_1_23 1 0 = Ok ((vinfo, cs), s') ∧
    variable vinfo = Variable_ 2 literal_1_23 0 ∧
    deps vinfo = mkDependencySet [] false false ∧
    variableinfo cs = {[ 0%nat := vinfo ]} ∧
    stacks cs = [(deps vinfo, [vinfo])].
Proof.
  apply (split_by_dependencies_terminal formdata_by_count [] []
           extract_variables_post 0 (FloatValue (123 # 100)) 1 0); reflexivity.
Defined.

(** ** The cell of an expression *)

Lemma find_app {A} (f : A → bool) (l1 l2 : list A) :
  find f (l1 ++ l2) = match find f l1 with
                      | Some x => Some x
                      | None => find f l2
                      end.
Proof. induction l1 as [|x l1 IH]; simpl; [done|]. by destruct (f x). Qed.

Section Expr_base_facts.

Variable terminal_cell : Expr → option Cell.

Lemma leaf_cells_Operator_cons (i : nat) (cls : operator_class) (o : Expr)
    (l : list Expr) :
  leaf_cells terminal_cell (Operator i cls (o :: l))
  = leaf_cells terminal_cell o ++ leaf_cells terminal_cell (Operator i cls l).
Proof. unfold leaf_cells. simpl. by rewrite omap_app. Qed.

Lemma best_cell_app (c : option Cell) (l1 l2 : list Cell) :
  best_cell c (l1 ++ l2) =
  match find (λ d, negb (is_undefined d)) l1 with
  | Some d => Some d
  | None => best_cell (best_cell c l1) l2
  end.
Proof.
  unfold best_cell. rewrite find_app, last_app.
  destruct (find _ l1) as [d|]; [done|].
  destruct (find _ l2) as [d|]; [done|].
  destruct (last l2); [done|]. by destruct (last l1).
Qed.

Lemma cell_loop_best (i : nat) (cls : operator_class) (ops : list Expr) :
  Forall (λ o, cell terminal_cell o = best_cell None (leaf_cells terminal_cell o)) ops →
  ∀ c, cell_loop terminal_cell c ops
       = best_cell c (leaf_cells terminal_cell (Operator i cls ops)).
Proof.
  induction 1 as [|o l Ho _ IH]; intros c; [done|].
  rewrite leaf_cells_Operator_cons, best_cell_app. cbn [cell_loop]. rewrite Ho.
  unfold best_cell at 1.
  destruct (find _ (leaf_cells terminal_cell o)) as [d|] eqn:Hfind.
  - apply find_some in Hfind as [_ Hd]. by rewrite Hd.
  - destruct (last (leaf_cells terminal_cell o)) as [d|] eqn:Hlast.
    + assert (Hd : negb (is_undefined d) = false).
      { apply (find_none _ _ Hfind). apply list_elem_of_In.
        apply last_Some in Hlast as [l' ->]. apply elem_of_app. right. by left. }
      assert (best_cell c (leaf_cells terminal_cell o) = Some d) as ->.
      { unfold best_cell. by rewrite Hfind, Hlast. }
      by rewrite Hd, IH.
    + assert (best_cell c (leaf_cells terminal_cell o) = c) as ->.
      { unfold best_cell. by rewrite Hfind, Hlast. }
      by rewrite IH.
Qed.

Lemma cell_best (x : Expr) :
  cell terminal_cell x = best_cell None (leaf_cells terminal_cell x).
Proof.
  induction x as [i cls|i e c IH|i cls ops IH] using Expr_ind_nested.
  - unfold leaf_cells, best_cell. simpl.
    destruct (terminal_cell (Terminal i cls)) as [d|]; simpl; [|done].
    by destruct (negb (is_undefined d)).
  - exact IH.
  - change (cell terminal_cell (Operator i cls ops))
      with (cell_loop terminal_cell None ops).
    by apply cell_loop_best.
Qed.

(** X18. [Expr.cell] of a tree is the cell of its first terminal, from
    left to right, whose cell is fully defined; when no terminal has a
    fully defined cell it is the cell of the last terminal that has one
    at all, and [None] when no terminal has a cell. *)
Theorem cell_first_defined_leaf (x : Expr) :
  cell terminal_cell x =
  match find (λ d, negb (is_undefined d)) (leaf_cells terminal_cell x) with
  | Some d => Some d
  | None => last (leaf_cells terminal_cell x)
  end.
Proof.
  rewrite cell_best. unfold best_cell.
  destruct (find _ _); [done|]. by destruct (last _).
Qed.

(** X19. [Expr.geometric_dimension] succeeds exactly when some terminal
    of the tree has a fully defined cell, and then answers the geometric
    dimension of the first such terminal from left to right; otherwise it
    raises, also when terminals have cells that are all undefined. *)
Theorem geometric_dimension_first_defined_leaf (x : Expr) :
  geometric_dimension terminal_cell x =
  match find (λ d, negb (is_undefined d)) (leaf_cells terminal_cell x) with
  | Some d => Ok (cell_geometric_dimension d)
  | None =>
      Raise (UFLException "Cannot infer geometric dimension for this expression.")
  end.
Proof.
  unfold geometric_dimension. rewrite cell_best. unfold best_cell.
  destruct (find _ _) as [d|] eqn:Hfind.
  - apply find_some in Hfind as [_ Hd]. apply negb_true_iff in Hd. by rewrite Hd.
  - destruct (last _) as [d|] eqn:Hlast; [|done].
    assert (Hd : negb (is_undefined d) = false).
    { apply (find_none _ _ Hfind). apply list_elem_of_In.
      apply last_Some in Hlast as [l' ->]. apply elem_of_app. right. by left. }
    apply negb_false_iff in Hd. by rewrite Hd.
Qed.

End Expr_base_facts.

(** ** Equality of VariableDerivativeVarSet *)

(** X20. [VariableDerivativeVarSet.__eq__] is an equivalence relation,
    and it looks at the open spatial directions through their number
    only: two instances with the same fixed directions and variables are
    equal exactly when they hold equally many open directions. *)
Theorem VariableDerivativeVarSet_eq_equivalence
    (a b c : VariableDerivativeVarSet.t) :
  VariableDerivativeVarSet.eq_ a a = true ∧
  VariableDerivativeVarSet.eq_ a b = VariableDerivativeVarSet.eq_ b a ∧
  (VariableDerivativeVarSet.eq_ a b = true →
   VariableDerivativeVarSet.eq_ b c = true →
   VariableDerivativeVarSet.eq_ a c = true) ∧
  (∀ open1 open2,
     VariableDerivativeVarSet.eq_
       (VariableDerivativeVarSet.mk
          (VariableDerivativeVarSet.fixed_spatial_directions a) open1
          (VariableDerivativeVarSet.variables a))
       (VariableDerivativeVarSet.mk
          (VariableDerivativeVarSet.fixed_spatial_directions a) open2
          (VariableDerivativeVarSet.variables a)) = true
     ↔ size open1 = size open2).
Proof.
  unfold VariableDerivativeVarSet.eq_. split_and!.
  - rewrite !bool_decide_eq_true_2 by done. simpl. by rewrite Nat.eqb_refl.
  - rewrite (bool_decide_ext _ _ (symmetry_iff (=) _ _)).
    rewrite (bool_decide_ext
               (VariableDerivativeVarSet.variables a = VariableDerivativeVarSet.variables b)
               _ (symmetry_iff (=) _ _)).
    by rewrite Nat.eqb_sym.
  - rewrite !andb_true_iff, !bool_decide_eq_true, !Nat.eqb_eq.
    intros [[-> ->] ->] [[-> ->] ->]. done.
  - intros open1 open2. simpl. rewrite !bool_decide_eq_true_2 by done. simpl.
    rewrite andb_true_r. apply Nat.eqb_eq.
Qed.

(** ** New labels are fresh *)

Lemma new_labels_above_same (s s' : State) :
  codestructure s' = codestructure s → new_labels_above s s'.
Proof. intros Hcs c Hc. left. by rewrite <- Hcs. Qed.

Lemma new_labels_above_trans (s1 s2 s3 : State) :
  (Label_globalcount s1 ≤ Label_globalcount s2)%nat →
  new_labels_above s1 s2 → new_labels_above s2 s3 → new_labels_above s1 s3.
Proof.
  intros Hg H12 H23 c Hc. destruct (H23 c Hc) as [H|H]; [by apply H12 | right; lia].
Qed.

Lemma register_expression_new_labels (e : Expr) (d : DependencySet) (s : State)
    (vi : VariableInfo) (s' : State) :
  res_ok s (e, d) →
  register_expression e d None s = Ok (vi, s') →
  new_labels_above s s'.
Proof.
  intros Hok Hreg.
  destruct (register_expression_spec e d None s)
    as (vi1 & s1 & Heq & _ & _ & _ & Hcase).
  rewrite Hreg in Heq. injection Heq as <- <-.
  destruct (variableinfo (codestructure s) !! registration_label e None s)
    as [vi0|] eqn:Hc.
  - destruct Hcase as [_ Hcs]. by apply new_labels_above_same.
  - destruct Hcase as (_ & _ & _ & _ & Hcs). intros c Hsome.
    rewrite Hcs in Hsome. simpl in Hsome.
    apply lookup_insert_is_Some in Hsome as [<-|[_ Hsome]]; [|by left].
    destruct (isinstance_Variable e) eqn:Hvar.
    + destruct (Hok Hvar) as (i & e0 & c0 & vi0 & Heq & Hc0 & _).
      simpl in Heq. subst e. simpl in Hc. congruence.
    + right. by destruct e.
Qed.

Lemma promote_ops_new_labels (ops : list (Expr * DependencySet)) :
  ∀ s ops' s',
    cs_inv s → Forall (res_ok s) ops →
    promote_ops ops s = Ok (ops', s') → new_labels_above s s'.
Proof.
  induction ops as [|o ops IH]; intros s ops' s' Hinv Hok Hrun.
  - injection Hrun as _ <-. by apply new_labels_above_same.
  - apply Forall_cons in Hok as [Ho Hok]. simpl in Hrun.
    apply bind_Ok in Hrun as (o' & s1 & Ho' & Hrun).
    apply bind_Ok in Hrun as (ops1 & s2 & Hops & Hret). injection Hret as _ <-.
    destruct (isinstance_skiptypes o.1).
    + injection Ho' as _ <-. by eapply IH.
    + apply bind_Ok in Ho' as (vi & s0 & Hreg & Hret). injection Hret as _ <-.
      destruct (register_expression_inv o.1 o.2 None s vi s0 Hinv) as [Hinv0 Hg0];
        [|done|].
      { intros _ i e' c He. unfold res_ok in Ho. rewrite He in Ho.
        destruct (Ho eq_refl) as (? & ? & ? & vi0 & Heq & Hc & _).
        injection Heq as <- <- <-. eauto. }
      eapply new_labels_above_trans.
      * apply Hg0.
      * eapply register_expression_new_labels; [|exact Hreg]. by destruct o.
      * eapply IH; [done| |done].
        eapply Forall_impl; [exact Hok|]. intros r. by apply res_ok_grows.
Qed.

Lemma expr_new_labels (x : Expr) (ops : list (Expr * DependencySet))
    (s : State) (r : Expr * DependencySet) (s' : State) :
  cs_inv s → Forall (res_ok s) ops →
  expr x ops s = Ok (r, s') → new_labels_above s s'.
Proof.
  intros Hinv Hok Hrun. destruct ops as [|o0 rest]; [done|]. unfold expr in Hrun.
  apply bind_Ok in Hrun as (ops' & s1 & Hops & Hrun).
  assert (H1 : new_labels_above s s1).
  { destruct (existsb _ _); [by eapply promote_ops_new_labels|].
    injection Hops as _ <-. by apply new_labels_above_same. }
  assert (Hcs : codestructure s' = codestructure s1).
  { destruct (all_is _ _); [by injection Hrun as _ <-|].
    apply bind_Ok in Hrun as (e & s2 & Hcons & Hret). injection Hret as _ <-.
    by eapply construct_codestructure. }
  intros c Hc. rewrite Hcs in Hc. by apply H1.
Qed.

Section fresh_labels.

Variable formdata : FormData.
Variable basisfunction_deps : list DependencySet.
Variable function_deps : list DependencySet.

Lemma visit_new_labels (o : Expr) :
  ∀ s r s', cs_inv s →
            visit formdata basisfunction_deps function_deps o s = Ok (r, s') →
            new_labels_above s s'.
Proof.
  induction o as [i cls|i e c IH|i cls ops IH] using Expr_ind_nested;
    intros s r s' Hinv Hrun.
  - apply new_labels_above_same.
    destruct cls; simpl in Hrun;
      unfold terminal, facet_normal, basis_function, function, ret, raise in Hrun;
      repeat case_match; simplify_eq; done.
  - change (visit formdata basisfunction_deps function_deps (Variable_ i e c) s)
      with (variable_ (Variable_ i e c) s) in Hrun.
    rewrite variable_spec in Hrun. apply new_labels_above_same.
    destruct (variableinfo (codestructure s) !! c); [|done]. by injection Hrun as _ <-.
  - rewrite visit_Operator in Hrun.
    apply bind_Ok in Hrun as (rs & s1 & Hall & Hrun).
    destruct (visit_all_inv _ _ _ ops s rs s1 Hinv Hall) as (Hinv1 & Hg1 & Hok1).
    assert (H1 : new_labels_above s s1).
    { clear Hrun Hinv1 Hg1 Hok1. revert s rs s1 Hinv Hall.
      induction IH as [|o ops Ho _ IHops]; intros s rs s1 Hinv Hall.
      - injection Hall as _ <-. by apply new_labels_above_same.
      - rewrite visit_all_cons in Hall.
        apply bind_Ok in Hall as (r0 & s0 & Hr0 & Hall).
        apply bind_Ok in Hall as (rs0 & s2 & Hrs0 & Hret).
        injection Hret as _ <-.
        destruct (visit_inv _ _ _ o _ _ _ Hinv Hr0) as (Hinv0 & Hg0 & _).
        eapply new_labels_above_trans; [apply Hg0 | by eapply Ho | by eapply IHops]. }
    eapply new_labels_above_trans; [apply Hg1 | exact H1 |].
    destruct cls; try (by eapply expr_new_labels).
    destruct rs as [|f [|ii [|? ?]]]; try done.
    apply new_labels_above_same. by eapply spatial_derivative_codestructure.
Qed.

(** X22. The labels a visit registers are new: after a successful visit
    in a state of a run, every registered label either was registered
    before or is at or above the value the global label counter had, so a
    label below the counter that was free before the visit is still
    free. *)
Theorem visit_registers_fresh_labels (o : Expr) (s : State)
    (r : Expr * DependencySet) (s' : State) :
  cs_inv s →
  visit formdata basisfunction_deps function_deps o s = Ok (r, s') →
  (∀ c, is_Some (variableinfo (codestructure s') !! c) →
        is_Some (variableinfo (codestructure s) !! c) ∨
        (Label_globalcount s ≤ c)%nat) ∧
  (∀ c, (c < Label_globalcount s)%nat →
        variableinfo (codestructure s) !! c = None →
        variableinfo (codestructure s') !! c = None).
Proof.
  intros Hinv Hrun. pose proof (visit_new_labels o s r s' Hinv Hrun) as Hnew.
  split; [exact Hnew|]. intros c Hlt Hc.
  destruct (variableinfo (codestructure s') !! c) as [vi|] eqn:Hc'; [|done].
  destruct (Hnew c) as [[x Hx]|Hge]; [by eexists | congruence | lia].
Qed.

(** X21. [handle] on a variable whose label is free and below the global
    counter, in a state of a run: when it succeeds, the expression of the
    variable has been visited, and the info answered holds the dependency
    set the visit answered and a new variable of the same label around
    the expression the visit answered. *)
Theorem handle_registers_visited_expression (i : nat) (e : Expr) (c : nat)
    (s : State) (vi : VariableInfo) (s' : State) :
  cs_inv s →
  (c < Label_globalcount s)%nat →
  variableinfo (codestructure s) !! c = None →
  handle formdata basisfunction_deps function_deps (Variable_ i e c) s
  = Ok (vi, s') →
  ∃ r s1,
    visit formdata basisfunction_deps function_deps e s = Ok (r, s1) ∧
    deps vi = r.2 ∧
    variable vi = Variable_ (next_id s1) r.1 c ∧
    variableinfo (codestructure s')
    = <[c := vi]> (variableinfo (codestructure s1)).
Proof.
  intros Hinv Hlt Hc Hrun. rewrite handle_Variable in Hrun.
  unfold bind at 1, variableinfo_get in Hrun. rewrite Hc in Hrun.
  apply bind_Ok in Hrun as (r & s1 & Hvis & Hreg).
  exists r, s1. split; [done|].
  pose proof (visit_new_labels e s r s1 Hinv Hvis) as Hnew.
  assert (Hc1 : variableinfo (codestructure s1) !! c = None).
  { destruct (variableinfo (codestructure s1) !! c) as [x|] eqn:Hx; [|done].
    destruct (Hnew c) as [[y Hy]|Hge]; [by eexists | congruence | lia]. }
  destruct (register_expression_spec r.1 r.2 (Some c) s1)
    as (vi1 & s2 & Heq & _ & _ & _ & Hcase).
  rewrite Hreg in Heq. injection Heq as <- <-.
  simpl in Hcase. rewrite Hc1 in Hcase.
  destruct Hcase as (Hd & _ & Hv & _ & Hcs).
  rewrite andb_false_r in Hv. rewrite Hcs. by split_and!.
Qed.

End fresh_labels.

Lemma visit_registers_fresh_labels_witness :
  ∃ r s',
    visit formdata_by_count [deps_v; deps_u] [] product_1_23_v one_variable_state
    = Ok (r, s') ∧
    variableinfo (codestructure s') !! 4%nat = None.
Proof.
  destruct (visit formdata_by_count [deps_v; deps_u] [] product_1_23_v
              one_variable_state) as [[r s']|exn] eqn:Hrun; [|by vm_compute in Hrun].
  exists r, s'. split; [reflexivity|].
  destruct (visit_registers_fresh_labels formdata_by_count [deps_v; deps_u] []
              product_1_23_v one_variable_state r s') as [_ Hfree].
  - split; unfold labels_fresh; simpl.
    + intros c vi [<- <-]%lookup_singleton_Some. lia.
    + intros c vi [<- <-]%lookup_singleton_Some. by eexists _, _.
    + intros c vi [<- <-]%lookup_singleton_Some. eexists. split; by left.
    + intros k stack vi Hk Hvi. apply list_elem_of_singleton in Hk.
      injection Hk as -> ->. apply list_elem_of_singleton in Hvi as ->.
      split; [done | simpl; lia].
    + apply NoDup_singleton.
    + apply NoDup_singleton.
  - exact Hrun.
  - apply Hfree; [simpl; lia | by vm_compute].
Defined.

Lemma handle_registers_visited_expression_witness :
  ∃ vi s' r s1,
    handle formdata_by_count [deps_v; deps_u] [] named_product initial_state
    = Ok (vi, s') ∧
    visit formdata_by_count [deps_v; deps_u] [] product_1_23_v initial_state
    = Ok (r, s1) ∧
    deps vi = r.2.
Proof.
  destruct (handle formdata_by_count [deps_v; deps_u] [] named_product initial_state)
    as [[vi s']|exn] eqn:Hrun; [|by vm_compute in Hrun].
  destruct (handle_registers_visited_expression formdata_by_count [deps_v; deps_u] []
              3 product_1_23_v 0 initial_state vi s')
    as (r & s1 & Hvis & Hd & _).
  - apply cs_inv_initial.
  - simpl. lia.
  - by vm_compute.
  - exact Hrun.
  - exists vi, s', r, s1. by split_and!.
Defined.
